(** * The code-execution service (services/codeRunner.js)

    A shallow embedding of the [CodeRunner] class: the strategy dispatch of
    [executeCode], the language executors, the value formatter used by the
    captured console, and the formatters behind [formatCode].

    The service is JavaScript running on Node. What it calls but does not
    define comes first: string primitives, regular expressions, values and
    their conversions, and an interface for the [vm2] sandbox and
    [JSON.parse]. The service follows, written against that interface; then
    a reference implementation of the interface on a fragment of JavaScript,
    on which the service can be run; then the properties. *)

From Stdlib Require Import ZArith NArith Bool Lia Ascii String DecimalString DecimalZ.
From stdpp Require Import base option list strings gmap.

Local Open Scope Z_scope.

(** ** JavaScript strings

    A JavaScript string is a sequence of UTF-16 code units; [length],
    [includes], [trim] and regular expressions without the [u] flag all work
    on code units. *)

Abbreviation jstring := (list N).

(** A literal of the source, written in ASCII. *)
Definition js (s : string) : jstring :=
  (fun a => N_of_ascii a) <$> list_ascii_of_string s.
Arguments js _%_string.

Definition eqb_jstring (a b : jstring) : bool := bool_decide (a = b).

(** [s.length] *)
Definition String_length (s : jstring) : Z := Z.of_nat (length s).

(** [String(n)] for an integer [n] that the host computes itself (a length,
    a difference of two clock readings, a position, the length limit): the
    decimal digits of [n], which is what JavaScript prints for an integer
    up to 2^53. The numbers of guest code and of JSON texts are [Double]s
    below, printed by [Double_toString]. *)
Definition Number_toString (n : Z) : jstring :=
  js (NilEmpty.string_of_int (Z.to_int n)).

(** [s] begins with [p]. *)
Fixpoint starts_with (p s : jstring) : bool :=
  match p, s with
  | [], _ => true
  | _ :: _, [] => false
  | a :: p', b :: s' => (a =? b)%N && starts_with p' s'
  end.

(** [s.includes(p)] *)
Fixpoint String_includes (s p : jstring) : bool :=
  starts_with p s ||
  match s with
  | [] => false
  | _ :: s' => String_includes s' p
  end.

(** [s.endsWith(p)] *)
Definition String_endsWith (s p : jstring) : bool :=
  starts_with (reverse p) (reverse s).

(** WhiteSpace and LineTerminator code units of ECMAScript: what [trim]
    strips and what [\s] matches. *)
Definition is_whitespace (c : N) : bool :=
  ((9 <=? c) && (c <=? 13) || (c =? 32) || (c =? 160) || (c =? 5760)
   || (8192 <=? c) && (c <=? 8202) || (c =? 8232) || (c =? 8233)
   || (c =? 8239) || (c =? 8287) || (c =? 12288) || (c =? 65279))%N.

Fixpoint String_trimStart (s : jstring) : jstring :=
  match s with
  | c :: s' => if is_whitespace c then String_trimStart s' else s
  | [] => []
  end.

(** [s.trim()] *)
Definition String_trim (s : jstring) : jstring :=
  reverse (String_trimStart (reverse (String_trimStart s))).

(** [parts.join(sep)] for an array whose elements are strings or
    [undefined] ([None]); [join] prints [undefined] as the empty string. *)
Fixpoint Array_join (sep : jstring) (parts : list (option jstring)) : jstring :=
  match parts with
  | [] => []
  | [x] => default [] x
  | x :: rest => default [] x ++ sep ++ Array_join sep rest
  end.

(** ** Numbers

    A JavaScript number is an IEEE 754 double: not a number, an infinity, or
    [m * 2^e] with a sign, where [0 <= m < 2^53] and [-1074 <= e <= 971],
    and [2^52 <= m] unless [e = -1074]; zero is [m = 0], [e = 0] and has a
    sign too. *)
Inductive Double :=
| NaN
| Infinite (negative : bool)
| Finite (negative : bool) (m e : Z).

(** [num / den >= 2^b], for positive [num] and [den]. *)
Definition at_least_pow2 (num den b : Z) : bool :=
  if 0 <=? b then den * 2 ^ b <=? num else den <=? num * 2 ^ (- b).

(** The double nearest to [num / den] ([0 <= num], [0 < den]), a tie going
    to the even mantissa: the rounding of IEEE 754 that ECMAScript
    prescribes for every number it makes. *)
Definition Double_round (negative : bool) (num den : Z) : Double :=
  if num =? 0 then Finite negative 0 0
  else
    let b := Z.log2 num - Z.log2 den in
    let b := if at_least_pow2 num den b then b else b - 1 in   (* floor (log2 (num / den)) *)
    let e := Z.max (b - 52) (-1074) in
    let '(n, d) := if 0 <=? e then (num, den * 2 ^ e) else (num * 2 ^ (- e), den) in
    let q := n / d in
    let r := n mod d in
    let m := if 2 * r <? d then q
             else if d <? 2 * r then q + 1
             else if Z.even q then q else q + 1 in
    let '(m, e) := if m =? 2 ^ 53 then (2 ^ 52, e + 1) else (m, e) in
    if 971 <? e then Infinite negative
    else if m =? 0 then Finite negative 0 0
    else Finite negative m e.

(** The number an integer denotes. *)
Definition Double_of_Z (n : Z) : Double := Double_round (n <? 0) (Z.abs n) 1.

(** The number that the decimal [digits * 10^exponent] denotes
    ([0 <= digits]). Beyond 10^310 every decimal rounds to an infinity, and
    below 2^-1080 to zero; there the powers are not computed. *)
Definition Double_of_decimal (negative : bool) (digits exponent : Z) : Double :=
  if digits =? 0 then Finite negative 0 0
  else if 310 <? exponent then Infinite negative
  else if Z.log2 digits + 1 + 3 * exponent <? -1080 then Finite negative 0 0
  else if 0 <=? exponent then Double_round negative (digits * 10 ^ exponent) 1
  else Double_round negative digits (10 ^ (- exponent)).

Definition Double_eqb (x y : Double) : bool :=
  match x, y with
  | NaN, NaN => true
  | Infinite a, Infinite b => Bool.eqb a b
  | Finite a m e, Finite b m' e' => Bool.eqb a b && (m =? m') && (e =? e')
  | _, _ => false
  end.

(** [num / den < 10^n] *)
Definition below_pow10 (num den n : Z) : bool :=
  if 0 <=? n then num <? den * 10 ^ n else num * 10 ^ (- n) <? den.

(** The least [n] from [n0] on with [num / den < 10^n]. *)
Fixpoint first_pow10_above (fuel : nat) (num den n0 : Z) : Z :=
  match fuel with
  | O => n0
  | S fuel => if below_pow10 num den n0 then n0 else first_pow10_above fuel num den (n0 + 1)
  end.

(** Number::toString of ECMAScript on a positive finite [x = m * 2^e]: the
    integers [s], [k], [n] with [10^(k-1) <= s < 10^k] and [k] as small as
    possible such that [s * 10^(n-k)] rounds to [x]; of two such [s] the one
    nearer to [x]. [x] is [num / den] and lies from [10^(n-1)] up to, but
    not at, [10^n]. Rounding is monotone, so if a decimal of [k] digits
    rounds to [x], one of the two next to [x] ([low] and [high]) does: the
    search looks at these two for [k] = 1, 2, ...; with 17 digits the
    nearer one always rounds to [x]. *)
Fixpoint shortest_digits (fuel : nat) (k : Z) (x : Double) (num den n : Z) : Z * Z * Z :=
  let p := n - k in
  let '(a, b) := if 0 <=? p then (num, den * 10 ^ p) else (num * 10 ^ (- p), den) in
  let low := a / b in                                   (* x / 10^p = a / b *)
  let high := low + 1 in
  let exact := a mod b =? 0 in
  let decimal s := if 0 <=? p then Double_round false (s * 10 ^ p) 1
                   else Double_round false s (10 ^ (- p)) in
  let low_ok := Double_eqb (decimal low) x in
  let high_ok := Double_eqb (decimal high) x in
  let nearer_low :=                                     (* a/b - low <= high - a/b *)
    if 2 * a <? (low + high) * b then true
    else if (low + high) * b <? 2 * a then false
    else Z.even low in
  let answer s := if s =? 10 ^ k then (10 ^ (k - 1), k, n + 1) else (s, k, n) in
  match fuel with
  | O => answer (if nearer_low then low else high)
  | S fuel =>
      if exact then answer low
      else if low_ok && (negb high_ok || nearer_low) then answer low
      else if high_ok then answer high
      else shortest_digits fuel (k + 1) x num den n
  end.

Definition zeros (n : Z) : jstring := replicate (Z.to_nat n) 48%N.

(** The text of a positive finite number, from its digits. *)
Definition Double_show (s k n : Z) : jstring :=
  let digits := Number_toString s in
  if (k <=? n) && (n <=? 21) then digits ++ zeros (n - k)
  else if (0 <? n) && (n <=? 21) then
    take (Z.to_nat n) digits ++ js "." ++ drop (Z.to_nat n) digits
  else if (-6 <? n) && (n <=? 0) then js "0." ++ zeros (- n) ++ digits
  else
    let exponent := (if 0 <=? n - 1 then js "+" else js "-") ++ Number_toString (Z.abs (n - 1)) in
    if k =? 1 then digits ++ js "e" ++ exponent
    else take 1 digits ++ js "." ++ drop 1 digits ++ js "e" ++ exponent.

(** [String(x)], Number::toString with radix 10. *)
Definition Double_toString (x : Double) : jstring :=
  match x with
  | NaN => js "NaN"
  | Infinite negative => (if negative then js "-" else []) ++ js "Infinity"
  | Finite negative m e =>
      if m =? 0 then js "0"
      else
        let '(num, den) := if 0 <=? e then (m * 2 ^ e, 1) else (m, 2 ^ (- e)) in
        (* [Z.log2 m + e] is the floor of [log2 x]; the [n] with
           [10^(n-1) <= x < 10^n] lies from [estimate] to [estimate + 3] *)
        let estimate := (Z.log2 m + e) * 30103 / 100000 in
        let n := first_pow10_above 4 num den (estimate - 1) in
        let '(s, k, n) := shortest_digits 16 1 (Double_round false num den) num den n in
        (if negative then js "-" else []) ++ Double_show s k n
  end.

(** ** Regular expressions

    The service only uses patterns that are a sequence of character classes,
    each taken once, zero or more times, or one or more times, always with the
    [g] flag in [replace].  Quantifiers are greedy and backtrack. *)

Inductive quantifier := Once | ZeroOrMore | OneOrMore.

Definition regex := list ((N -> bool) * quantifier).

(** Greedy repetition of class [c] followed by the continuation [k]: take as
    many code units as possible, give them back one at a time while [k]
    fails. The result is what is left of the subject after the match. *)
Fixpoint match_star (c : N -> bool) (k : jstring -> option jstring)
    (s : jstring) : option jstring :=
  match s with
  | x :: s' =>
      if c x then
        match match_star c k s' with
        | Some rest => Some rest
        | None => k s
        end
      else k s
  | [] => k []
  end.

(** Match the pattern at the start of [s]. *)
Fixpoint match_here (r : regex) (s : jstring) : option jstring :=
  match r with
  | [] => Some s
  | (c, Once) :: r' =>
      match s with
      | x :: s' => if c x then match_here r' s' else None
      | [] => None
      end
  | (c, ZeroOrMore) :: r' => match_star c (match_here r') s
  | (c, OneOrMore) :: r' =>
      match s with
      | x :: s' => if c x then match_star c (match_here r') s' else None
      | [] => None
      end
  end.

(** [s.replace(/r/g, by)]: scan left to right; [skip] counts the code units
    of the current match still to be dropped. Every pattern of the service
    consumes at least one code unit when it matches. *)
Fixpoint replace_from (r : regex) (by_ : jstring) (skip : nat) (s : jstring)
    : jstring :=
  match s with
  | [] => []
  | x :: s' =>
      match skip with
      | S n => replace_from r by_ n s'
      | O =>
          match match_here r s with
          | Some rest =>
              by_ ++ replace_from r by_ (length s - length rest - 1)%nat s'
          | None => x :: replace_from r by_ O s'
          end
      end
  end.

Definition String_replace (s : jstring) (r : regex) (by_ : jstring) : jstring :=
  replace_from r by_ O s.

(** Character classes. *)
Definition chr (a : string) (c : N) : bool :=
  match js a with
  | [x] => (c =? x)%N
  | _ => false
  end.
Arguments chr _%_string _.

Definition not_chr (a : string) (c : N) : bool := negb (chr a c).
Arguments not_chr _%_string _.

Definition one_of (set : string) (c : N) : bool :=
  bool_decide (c ∈ js set).
Arguments one_of _%_string _.

Definition is_letter (c : N) : bool :=
  ((65 <=? c) && (c <=? 90) || (97 <=? c) && (c <=? 122))%N.

Definition is_digit (c : N) : bool := ((48 <=? c) && (c <=? 57))%N.

(** [\w] *)
Definition is_word (c : N) : bool := is_letter c || is_digit c || (c =? 95)%N.

(** A word of the pattern, one class per letter. *)
Definition word (w : string) : regex :=
  (fun x => (N.eqb x, Once)) <$> js w.
Arguments word _%_string.


(** ** JavaScript values

    [Json] is plain data: what [JSON.parse] builds. An object the model
    does not describe by its structure (one with cycles, with methods of its
    own, a function, ...) is described by what the service can observe of
    it. *)

Inductive Outcome (V A : Type) : Type :=
| Returned (a : A)
| Thrown (e : V).
Arguments Returned {V A} a.
Arguments Thrown {V A} e.

#[warnings="-register-all"]
Inductive Json : Type :=
| JNull
| JBool (b : bool)
| JNum (x : Double)
| JStr (s : jstring)
| JArr (items : list Json)
| JObj (props : list (jstring * Json)).

(** The observable behaviour of an opaque object [o]: what the service gets
    when it serializes [o], converts it to a string or reads its [message].
    The model takes these operations to have no other effect (a method of
    the guest that logs, or queues work, while the service calls it is
    outside the model), and [toString] to return a string when it returns.
    The properties below that say what the lines of a script are, are
    stated for plain values, on which neither assumption bears. *)
Record Behaviour (V : Type) : Type := {
  callable : bool;                                (* typeof o === 'function' *)
  stringify_result : Outcome V (option jstring);  (* JSON.stringify(o, null, 2) *)
  toString_result : Outcome V jstring;            (* o.toString(), String(o) *)
  message_result : Outcome V V                    (* o.message *)
}.
Arguments callable {V} _.
Arguments stringify_result {V} _.
Arguments toString_result {V} _.
Arguments message_result {V} _.

#[warnings="-register-all"]
Inductive Value : Type :=
| VUndefined
| VNull
| VBool (b : bool)
| VNum (x : Double)
| VStr (s : jstring)
| VArr (items : list Json)
| VObj (props : list (jstring * Json))
| VError (name message : jstring)      (* an instance of a built-in error *)
| VConsole (buffer : nat)              (* the console object of one call *)
| VOpaque (o : Behaviour Value).

Abbreviation Completion := (Outcome Value).

Definition of_json (j : Json) : Value :=
  match j with
  | JNull => VNull
  | JBool b => VBool b
  | JNum x => VNum x
  | JStr s => VStr s
  | JArr items => VArr items
  | JObj props => VObj props
  end.

(** Sequencing: the first exception ends the computation. *)
#[global] Instance Completion_bind : MBind Completion :=
  fun A B k c =>
    match c with
    | Returned a => k a
    | Thrown e => Thrown e
    end.

(** [xs.map(f)], left to right; the first exception ends it. *)
Fixpoint Array_map {A B : Type} (f : A -> Completion B) (xs : list A)
    : Completion (list B) :=
  match xs with
  | [] => Returned []
  | x :: xs' =>
      y ← f x;
      ys ← Array_map f xs';
      Returned (y :: ys)
  end.

Definition TypeError (message : string) : Value := VError (js "TypeError") (js message).
Arguments TypeError _%_string.

(** [new Error(message)] *)
Definition Error (message : jstring) : Value := VError (js "Error") message.

(** [typeof v] *)
Definition typeof (v : Value) : jstring :=
  match v with
  | VUndefined => js "undefined"
  | VBool _ => js "boolean"
  | VNum _ => js "number"
  | VStr _ => js "string"
  | VNull | VArr _ | VObj _ | VError _ _ | VConsole _ => js "object"
  | VOpaque o => if callable o then js "function" else js "object"
  end.

(** *** JSON.stringify(_, null, 2) *)

Definition hex_digit (n : N) : N :=
  (if n <? 10 then 48 + n else 87 + n)%N.

(** [\uXXXX] *)
Definition unicode_escape (c : N) : jstring :=
  js "\u" ++ [hex_digit (c / 4096 mod 16); hex_digit (c / 256 mod 16);
              hex_digit (c / 16 mod 16); hex_digit (c mod 16)]%N.

Definition quote_unit (c : N) : jstring :=
  (if c =? 34 then js "\" ++ [34]
   else if c =? 92 then js "\\"
   else if c =? 8 then js "\b"
   else if c =? 9 then js "\t"
   else if c =? 10 then js "\n"
   else if c =? 12 then js "\f"
   else if c =? 13 then js "\r"
   else if c <? 32 then unicode_escape c
   else [c])%N.

Definition is_high_surrogate (c : N) : bool := ((55296 <=? c) && (c <=? 56319))%N.
Definition is_low_surrogate (c : N) : bool := ((56320 <=? c) && (c <=? 57343))%N.

(** The characters of a quoted string; a surrogate that is not part of a pair
    is escaped. [paired] says that the previous unit was a high surrogate
    that this low surrogate completes. *)
Fixpoint quote_units (paired : bool) (s : jstring) : jstring :=
  match s with
  | [] => []
  | c :: s' =>
      if is_high_surrogate c then
        match s' with
        | d :: _ =>
            if is_low_surrogate d then c :: quote_units true s'
            else unicode_escape c ++ quote_units false s'
        | [] => unicode_escape c
        end
      else if is_low_surrogate c then
        (if paired then [c] else unicode_escape c) ++ quote_units false s'
      else quote_unit c ++ quote_units false s'
  end.

Definition JSON_quote (s : jstring) : jstring := [34%N] ++ quote_units false s ++ [34%N].

Definition some_join (sep : jstring) (parts : list jstring) : jstring :=
  Array_join sep (Some <$> parts).

(** The text of a plain value at the indentation [indent]. *)
Fixpoint Json_serialize (indent : jstring) (j : Json) : jstring :=
  let inner := indent ++ js "  " in
  match j with
  | JNull => js "null"
  | JBool b => if b then js "true" else js "false"
  | JNum x =>                             (* a number that is not finite prints as null *)
      match x with
      | Finite _ _ _ => Double_toString x
      | _ => js "null"
      end
  | JStr s => JSON_quote s
  | JArr [] => js "[]"
  | JArr items =>
      js "[" ++ [10%N] ++ inner
      ++ some_join (js "," ++ [10%N] ++ inner) (map (Json_serialize inner) items)
      ++ [10%N] ++ indent ++ js "]"
  | JObj [] => js "{}"
  | JObj props =>
      js "{" ++ [10%N] ++ inner
      ++ some_join (js "," ++ [10%N] ++ inner)
           (map (fun kv => JSON_quote (fst kv) ++ js ": " ++ Json_serialize inner (snd kv)) props)
      ++ [10%N] ++ indent ++ js "}"
  end.

(** [JSON.stringify(value, null, 2)]: a string, [undefined] ([None]) or an
    exception. Errors and the console object have no enumerable property
    that is not a function. *)
Definition JSON_stringify (value : Value) : Completion (option jstring) :=
  match value with
  | VUndefined => Returned None
  | VNull => Returned (Some (Json_serialize [] JNull))
  | VBool b => Returned (Some (Json_serialize [] (JBool b)))
  | VNum x => Returned (Some (Json_serialize [] (JNum x)))
  | VStr s => Returned (Some (Json_serialize [] (JStr s)))
  | VArr items => Returned (Some (Json_serialize [] (JArr items)))
  | VObj props => Returned (Some (Json_serialize [] (JObj props)))
  | VError _ _ | VConsole _ => Returned (Some (js "{}"))
  | VOpaque o => stringify_result o
  end.

(** *** Conversion to string *)

(** [String(j)] for plain data: an array prints its elements separated by
    commas, [null] as nothing. *)
Fixpoint Json_toString (j : Json) : jstring :=
  match j with
  | JNull => js "null"
  | JBool b => if b then js "true" else js "false"
  | JNum x => Double_toString x
  | JStr s => s
  | JArr items =>
      some_join (js ",")
        (map (fun x => match x with JNull => [] | _ => Json_toString x end) items)
  | JObj _ => js "[object Object]"
  end.

(** ToString: [String(v)], [`${v}`], and for an object [v.toString()]. *)
Definition ToString (v : Value) : Completion jstring :=
  match v with
  | VUndefined => Returned (js "undefined")
  | VNull => Returned (js "null")
  | VBool b => Returned (Json_toString (JBool b))
  | VNum x => Returned (Double_toString x)
  | VStr s => Returned s
  | VArr items => Returned (Json_toString (JArr items))
  | VObj props => Returned (Json_toString (JObj props))
  | VError name message =>
      Returned (if eqb_jstring message [] then name
                else if eqb_jstring name [] then message
                else name ++ js ": " ++ message)
  | VConsole _ => Returned (js "[object Object]")
  | VOpaque o => toString_result o
  end.

Fixpoint assoc {A : Type} (k : jstring) (props : list (jstring * A)) : option A :=
  match props with
  | [] => None
  | (k', v) :: rest => if eqb_jstring k k' then Some v else assoc k rest
  end.

(** [v.message] *)
Definition get_message (v : Value) : Completion Value :=
  match v with
  | VUndefined => Thrown (TypeError "Cannot read properties of undefined (reading 'message')")
  | VNull => Thrown (TypeError "Cannot read properties of null (reading 'message')")
  | VError _ message => Returned (VStr message)
  | VObj props => Returned (from_option of_json VUndefined (assoc (js "message") props))
  | VOpaque o => message_result o
  | VBool _ | VNum _ | VStr _ | VArr _ | VConsole _ => Returned VUndefined
  end.

(** ** The platform: the vm2 sandbox and JSON.parse

    [vm.run(code)] executes guest code in the context of the VM. Seen from
    the service a run is a sequence of calls of console methods, each
    answered by the service, ending in the completion of the script (its
    value, or what it threw: a fault of the guest, a syntax error, the
    timeout) and the context as the script left it. vm2 bounds every run by
    the timeout, so a run is finite.

    A console method is a closure over the [output] array of the call that
    created it; [buffer] names that array. (The console that
    [createSafeSandbox] installs goes through [captureOutput], which touches
    nothing of the service, and is replaced before the first script runs.)

    Two things a script can do are outside the model.

    - Work that a script queues for after the run (the reactions of a
      promise) is not part of the run. It is executed when [executeCode]
      awaits the executor, and can still push lines to the [output] array of
      the call before [executeCode] joins it. The model describes scripts
      that queue none; what is proved of the [output] of a javascript call is
      proved of the array that [executeJavaScript] returns.

    - [createSafeSandbox] hands the host's own [JSON], [Date], [Array],
      [String], [Object], [Promise], ... to the guest by reference, and vm2
      leaves them writable. The functions of this file that stand for
      built-ins of the host ([JSON_parse], [Json_serialize], [Array_join],
      the string primitives, the readings of the clock) are the built-ins as
      ECMAScript defines them: the model describes the service as long as no
      script has changed them, and nothing is claimed of a service on which
      one has. *)

Inductive Level := LevelLog | LevelError | LevelWarn | LevelInfo | LevelDebug.

Inductive Guest (S : Type) : Type :=
| Finished (result : Completion Value) (sandbox : S)
| ConsoleCall (buffer : nat) (level : Level) (args : list Value)
    (resume : Completion Value -> Guest S).
Arguments Finished {S} result sandbox.
Arguments ConsoleCall {S} buffer level args resume.

Class Runtime : Type := {
  (** the global object of a VM context, with everything reachable from it *)
  Sandbox : Type;
  (** [new VM({timeout, sandbox: createSafeSandbox(), eval: false, wasm: false})] *)
  VM_new : Z -> Sandbox;
  (** [vm.sandbox.console = {log, error, warn, info, debug}], the five
      closures over the array [buffer] *)
  Sandbox_set_console : nat -> Sandbox -> Sandbox;
  (** [vm.run(code)] *)
  VM_run : Sandbox -> jstring -> Guest Sandbox;
  (** [JSON.parse(text)]: the value, or the message of the SyntaxError *)
  JSON_parse : jstring -> Json + jstring
}.

(** ** The service *)

(** The arrays the service allocates ([const output = []]), by allocation
    order; an element is a string or [undefined]. *)
Abbreviation Arrays := (list (list (option jstring))).

(** [array.push(x)]: the new length. *)
Definition Array_push (arrays : Arrays) (array : nat) (x : option jstring)
    : Arrays * Z :=
  match arrays !! array with
  | Some elements =>
      (<[array := elements ++ [x]]> arrays, Z.of_nat (length elements) + 1)
  | None => (arrays, 0)
  end.

Definition Array_read (arrays : Arrays) (array : nat) : list (option jstring) :=
  default [] (arrays !! array).

(** [formatOutput(value)] *)
Definition formatOutput (value : Value) : Completion (option jstring) :=
  match value with
  | VNull => Returned (Some (js "null"))
  | VUndefined => Returned (Some (js "undefined"))
  | _ =>
      if eqb_jstring (typeof value) (js "object") then
        match JSON_stringify value with
        | Returned text => Returned text
        | Thrown _ => s ← ToString value; Returned (Some s)   (* value.toString() *)
        end
      else s ← ToString value; Returned (Some s)             (* String(value) *)
  end.

(** What each console method of [executeJavaScript] puts before the message. *)
Definition level_prefix (level : Level) : jstring :=
  match level with
  | LevelLog => []
  | LevelError => js "ERROR: "
  | LevelWarn => js "WARN: "
  | LevelInfo => js "INFO: "
  | LevelDebug => js "DEBUG: "
  end.

(** The line a console method pushes:
    [args.map(arg => this.formatOutput(arg)).join(' ')] behind its prefix. *)
Definition console_line (level : Level) (args : list Value) : Completion jstring :=
  parts ← Array_map formatOutput args;
  Returned (level_prefix level ++ Array_join (js " ") parts).

(** Run the guest, answering each console call:
    [(...args) => output.push(line)] returns the new length of [output]; an
    exception of [formatOutput] is raised in the guest. *)
Fixpoint serve {S : Type} (g : Guest S) (arrays : Arrays)
    : Arrays * Completion Value * S :=
  match g with
  | Finished result sandbox => (arrays, result, sandbox)
  | ConsoleCall output level args resume =>
      match console_line level args with
      | Returned line =>
          let '(arrays', n) := Array_push arrays output (Some line) in
          serve (resume (Returned (VNum (Double_of_Z n)))) arrays'
      | Thrown e => serve (resume (Thrown e)) arrays
      end
  end.

(** The result of [executeCode]: the object literal it returns, property by
    property. *)
Abbreviation ExecutionResult := (list (jstring * Value)).

(** [o[k]] *)
Definition get (o : ExecutionResult) (k : string) : Value :=
  default VUndefined (assoc (js k) o).
Arguments get _ _%_string.

(** [k in o] *)
Definition has (o : ExecutionResult) (k : string) : bool :=
  bool_decide (is_Some (assoc (js k) o)).
Arguments has _ _%_string.

Record FormatResult := { code : jstring; changes : list jstring }.

(** The patterns of [executeTypeScript] and of the formatters. *)
Definition type_annotation : regex :=               (* /:\s*[a-zA-Z<>\[\]{}|&]+/ *)
  [(chr ":", Once); (is_whitespace, ZeroOrMore);
   (fun c => is_letter c || one_of "<>[]{}|&" c, OneOrMore)].
Definition interface_declaration : regex :=         (* /interface\s+\w+\s*{[^}]*}/ *)
  word "interface" ++
  [(is_whitespace, OneOrMore); (is_word, OneOrMore); (is_whitespace, ZeroOrMore);
   (chr "{", Once); (not_chr "}", ZeroOrMore); (chr "}", Once)].
Definition type_alias : regex :=                    (* /type\s+\w+\s*=\s*[^;]+;/ *)
  word "type" ++
  [(is_whitespace, OneOrMore); (is_word, OneOrMore); (is_whitespace, ZeroOrMore);
   (chr "=", Once); (is_whitespace, ZeroOrMore); (not_chr ";", OneOrMore);
   (chr ";", Once)].
Definition generics : regex :=                      (* /<[^>]*>/ *)
  [(chr "<", Once); (not_chr ">", ZeroOrMore); (chr ">", Once)].
Definition between_tags : regex :=                  (* />\s*</ *)
  [(chr ">", Once); (is_whitespace, ZeroOrMore); (chr "<", Once)].
Definition open_brace : regex :=                    (* /{\s*/ *)
  [(chr "{", Once); (is_whitespace, ZeroOrMore)].
Definition close_brace : regex :=                   (* /;\s*}/ *)
  [(chr ";", Once); (is_whitespace, ZeroOrMore); (chr "}", Once)].

(** [parseInt(process.env.X) || fallback]: [None] is NaN. *)
Definition parseInt_or (env : option Z) (fallback : Z) : Z :=
  match env with
  | Some n => if n =? 0 then fallback else n
  | None => fallback
  end.

Section CodeRunner.
Context {platform : Runtime}.

(** The fields of the one [CodeRunner] the module exports, and the arrays
    its calls have allocated. *)
Record CodeRunner := {
  timeout : Z;
  maxCodeLength : Z;
  vm : Sandbox;
  arrays : Arrays
}.

Definition constructor (CODE_EXECUTION_TIMEOUT MAX_CODE_LENGTH : option Z)
    : CodeRunner :=
  let timeout := parseInt_or CODE_EXECUTION_TIMEOUT 10000 in
  {| timeout := timeout;
     maxCodeLength := parseInt_or MAX_CODE_LENGTH 10000;
     vm := VM_new timeout;
     arrays := [] |}.

Definition with_vm (this : CodeRunner) (sandbox : Sandbox) (arrays' : Arrays)
    : CodeRunner :=
  {| timeout := timeout this; maxCodeLength := maxCodeLength this;
     vm := sandbox; arrays := arrays' |}.

(** An executor returns its [output] array or throws; it may leave the
    runner changed. *)
Abbreviation Executed := (Completion (list (option jstring)) * CodeRunner)%type.

Definition executeJavaScript (this : CodeRunner) (code input : jstring) : Executed :=
  let output := length (arrays this) in                     (* const output = [] *)
  let sandbox := Sandbox_set_console output (vm this) in
  let '(arrays1, result, sandbox') :=
    serve (VM_run sandbox code) (arrays this ++ [[]]) in
  match result with
  | Thrown e => (Thrown e, with_vm this sandbox' arrays1)
  | Returned VUndefined =>
      (Returned (Array_read arrays1 output), with_vm this sandbox' arrays1)
  | Returned result =>
      match formatOutput result with
      | Returned line =>
          let arrays2 := fst (Array_push arrays1 output line) in
          (Returned (Array_read arrays2 output), with_vm this sandbox' arrays2)
      | Thrown e => (Thrown e, with_vm this sandbox' arrays1)
      end
  end.

(** The four [replace] calls of [executeTypeScript]. *)
Definition strip_types (code : jstring) : jstring :=
  String_replace
    (String_replace
       (String_replace (String_replace code type_annotation [])
          interface_declaration [])
       type_alias [])
    generics [].

Definition executeTypeScript (this : CodeRunner) (code input : jstring) : Executed :=
  let attempt :=
    if String_includes code (js "interface") || String_includes code (js "type")
       || String_includes code (js ":")
    then executeJavaScript this (strip_types code) input
    else executeJavaScript this code input in
  match attempt with
  | (Returned output, this') => (Returned output, this')
  | (Thrown error, this') =>
      (message ← get_message error;
       text ← ToString message;
       Thrown (Error (js "TypeScript execution failed: " ++ text)),
       this')
  end.

Definition executePython (this : CodeRunner) (code input : jstring) : Executed :=
  (Returned [Some (js "Python execution is not yet implemented in this demo version.");
             Some (js "Code received:");
             Some code;
             Some (js "Input received: " ++ input)],
   this).

Definition executeHTML (this : CodeRunner) (code : jstring) : Executed :=
  (Returned [Some (js "HTML Preview:");
             Some (js "```html");
             Some code;
             Some (js "```");
             Some [];
             Some (js "Note: This is a preview. To see the rendered result, copy the HTML to a file and open it in a browser.")],
   this).

Definition executeCSS (this : CodeRunner) (code : jstring) : Executed :=
  (Returned [Some (js "CSS Code:");
             Some (js "```css");
             Some code;
             Some (js "```");
             Some [];
             Some (js "Note: This is a preview. To see the rendered result, copy the CSS to a file and link it to an HTML document.")],
   this).

Definition executeJSON (this : CodeRunner) (code : jstring) : Executed :=
  match JSON_parse code with
  | inl parsed =>
      (Returned [Some (js "Valid JSON:");
                 Some (js "```json");
                 Some (Json_serialize [] parsed);
                 Some (js "```")],
       this)
  | inr message => (Thrown (Error (js "Invalid JSON: " ++ message)), this)
  end.

Definition executeMarkdown (this : CodeRunner) (code : jstring) : Executed :=
  (Returned [Some (js "Markdown Preview:");
             Some (js "```markdown");
             Some code;
             Some (js "```");
             Some [];
             Some (js "Note: This is a preview. To see the rendered result, copy the markdown to a file and open it in a markdown viewer.")],
   this).

(** [executeCode(code, language, input)]; [startTime] and [endTime] are the
    two readings of [Date.now()]. The promise resolves to the result object
    ([Returned]) or is rejected ([Thrown]). *)
Definition executeCode (this : CodeRunner) (startTime endTime : Z)
    (code language input : jstring) : Completion ExecutionResult * CodeRunner :=
  let output : list (option jstring) := [] in               (* let output = [] *)
  let executionTime := endTime - startTime in
  let attempt : Executed :=
    if String_length code >? maxCodeLength this then
      (Thrown (Error (js "Code too long. Maximum allowed: "
                      ++ Number_toString (maxCodeLength this) ++ js " characters")),
       this)
    else if eqb_jstring language (js "javascript") then executeJavaScript this code input
    else if eqb_jstring language (js "typescript") then executeTypeScript this code input
    else if eqb_jstring language (js "python") then executePython this code input
    else if eqb_jstring language (js "html") then executeHTML this code
    else if eqb_jstring language (js "css") then executeCSS this code
    else if eqb_jstring language (js "json") then executeJSON this code
    else if eqb_jstring language (js "markdown") then executeMarkdown this code
    else (Thrown (Error (js "Unsupported language: " ++ language)), this) in
  match attempt with
  | (Returned output, this') =>                     (* output = await ... *)
      (Returned
         [(js "output", VStr (Array_join [10%N] output));
          (js "error", VNull);
          (js "executionTime", VStr (Number_toString executionTime ++ js "ms"));
          (js "language", VStr language);
          (js "success", VBool true)],
       this')
  | (Thrown err, this') =>                           (* catch (err) *)
      (message ← get_message err;
       Returned
         [(js "output", VStr (Array_join [10%N] output));
          (js "error", message);
          (js "executionTime", VStr (Number_toString executionTime ++ js "ms"));
          (js "language", VStr language);
          (js "success", VBool false)],
       this')
  end.

(** *** Formatting *)

Definition formatJavaScript (code : jstring) : FormatResult :=
  if negb (String_endsWith (String_trim code) (js ";"))
     && negb (String_endsWith (String_trim code) (js "}"))
  then {| code := code ++ js ";"; changes := [js "Added missing semicolon"] |}
  else {| code := code; changes := [] |}.

Definition formatJSON (code : jstring) : Completion FormatResult :=
  match JSON_parse code with
  | inl parsed =>
      Returned {| code := Json_serialize [] parsed;
                  changes := [js "Formatted JSON with proper indentation"] |}
  | inr message => Thrown (Error (js "Invalid JSON: " ++ message))
  end.

Definition formatHTML (code : jstring) : FormatResult :=
  {| code := String_replace code between_tags (js ">" ++ [10%N] ++ js "<");
     changes := [js "Added line breaks between HTML tags"] |}.

Definition formatCSS (code : jstring) : FormatResult :=
  let formattedCode := String_replace code open_brace (js " {" ++ [10%N] ++ js "  ") in
  let formattedCode := String_replace formattedCode close_brace (js ";" ++ [10%N] ++ js "}") in
  {| code := formattedCode; changes := [js "Added proper CSS formatting"] |}.

(** [formatCode(code, language)] *)
Definition formatCode (code language : jstring) : Completion FormatResult :=
  let attempt :=
    if eqb_jstring language (js "javascript") then Returned (formatJavaScript code)
    else if eqb_jstring language (js "json") then formatJSON code
    else if eqb_jstring language (js "html") then Returned (formatHTML code)
    else if eqb_jstring language (js "css") then Returned (formatCSS code)
    else Returned {| code := code; changes := [] |} in
  match attempt with
  | Returned r => Returned r
  | Thrown error =>
      message ← get_message error;
      text ← ToString message;
      Thrown (Error (js "Code formatting failed: " ++ text))
  end.

End CodeRunner.

(** ** A reference platform

    What V8 and vm2 do on a fragment of JavaScript and of JSON, by their
    definition in ECMAScript, so that the service can be run on concrete
    programs. The fragment of JavaScript: one line of statements separated by
    [;], each an expression or [throw e]; expressions are decimal integers
    (a literal stands for the double nearest to it), strings without escapes, [null], [undefined], [true], [false], global
    variables written in lower-case letters, [x = e], [typeof e] and calls of
    the five console methods. Scripts run in sloppy mode (a script with the
    directive ['use strict'] is outside the fragment), so an assignment to an
    undeclared name creates a property of the global object.

    A text outside the fragment is answered with a syntax error; V8 does so
    only for those that are not JavaScript (or JSON) at all, so the reference
    platform stands for V8 on texts of the fragment only. *)

Module MiniJS.

Inductive token :=
| TWord (w : jstring)
| TNum (n : Z)
| TStr (s : jstring)
| TPunct (c : N).

Inductive lexer :=
| Start
| InWord (w : jstring)
| InNum (digits : jstring)
| InStr (quote : N) (s : jstring).

Definition is_lower (c : N) : bool := ((97 <=? c) && (c <=? 122))%N.

(** Code units that would continue an identifier (or, after digits, turn a
    numeric literal into something else) in ways the fragment leaves out. *)
Definition continues_name (c : N) : bool :=
  is_letter c || is_digit c || one_of "_$\" c || (127 <? c)%N.

Definition decimal (digits : jstring) : Z :=
  foldl (fun acc d => 10 * acc + (Z.of_N d - 48)) 0 digits.

(** The token a finished numeric literal makes: no leading zero (which
    would make the literal octal). *)
Definition number_token (digits : jstring) : option token :=
  match digits with
  | 48%N :: _ :: _ => None
  | _ => Some (TNum (decimal digits))
  end.

Definition start (c : N) : option (list token * lexer) :=
  if (c =? 32)%N || (c =? 9)%N then Some ([], Start)
  else if is_lower c then Some ([], InWord [c])
  else if is_digit c then Some ([], InNum [c])
  else if (c =? 34)%N || (c =? 39)%N then Some ([], InStr c [])
  else if one_of "();,.=" c then Some ([TPunct c], Start)
  else None.

Definition step (st : lexer) (c : N) : option (list token * lexer) :=
  match st with
  | Start => start c
  | InWord w =>
      if is_lower c then Some ([], InWord (w ++ [c]))
      else if continues_name c then None
      else '(ts, st') ← start c; Some (TWord w :: ts, st')
  | InNum digits =>
      if is_digit c then Some ([], InNum (digits ++ [c]))
      else if continues_name c || chr "." c then None
      else t ← number_token digits; '(ts, st') ← start c; Some (t :: ts, st')
  | InStr quote s =>
      if (c =? quote)%N then Some ([TStr s], Start)
      else if (c =? 92)%N || (c <? 32)%N || (126 <? c)%N then None
      else Some ([], InStr quote (s ++ [c]))
  end.

Fixpoint lex (st : lexer) (s : jstring) : option (list token) :=
  match s with
  | [] =>
      match st with
      | Start => Some []
      | InWord w => Some [TWord w]
      | InNum digits => t ← number_token digits; Some [t]
      | InStr _ _ => None
      end
  | c :: s' =>
      '(ts, st') ← step st c;
      rest ← lex st' s';
      Some (ts ++ rest)
  end.

#[warnings="-register-all"]
Inductive expr :=
| ELit (v : Value)
| EVar (x : jstring)
| EAssign (x : jstring) (e : expr)
| ETypeof (e : expr)
| EConsole (level : Level) (args : list expr).

Inductive stmt :=
| SEmpty
| SExpr (e : expr)
| SThrow (e : expr).

(** Lower-case words that are not free for a global variable of the guest:
    reserved words, and names a fresh context already resolves. *)
Definition taken : list jstring :=
  js <$> ["arguments"; "async"; "await"; "break"; "case"; "catch"; "class";
          "console"; "const"; "constructor"; "continue"; "debugger"; "default";
          "delete"; "do"; "else"; "enum"; "escape"; "eval"; "export"; "exports";
          "extends"; "false"; "finally"; "for"; "function"; "get"; "global";
          "if"; "implements"; "import"; "in"; "instanceof"; "interface"; "let";
          "module"; "new"; "null"; "of"; "package"; "private"; "process";
          "protected"; "public"; "require"; "return"; "set"; "static"; "super";
          "switch"; "this"; "throw"; "true"; "try"; "typeof"; "undefined";
          "unescape"; "var"; "void"; "while"; "with"; "yield"]%string.

Definition is_variable (w : jstring) : bool := bool_decide (w ∉ taken).

Definition level_of (w : jstring) : option Level :=
  if eqb_jstring w (js "log") then Some LevelLog
  else if eqb_jstring w (js "error") then Some LevelError
  else if eqb_jstring w (js "warn") then Some LevelWarn
  else if eqb_jstring w (js "info") then Some LevelInfo
  else if eqb_jstring w (js "debug") then Some LevelDebug
  else None.

(** Recursive descent; [fuel] bounds the nesting, and twice the number of
    tokens is enough of it. Punctuation by code unit: 40 and 41 are the
    parentheses, 44 the comma, 46 the dot, 59 the semicolon, 61 the equals
    sign. *)
Fixpoint parse_assignment (fuel : nat) (ts : list token) : option (expr * list token) :=
  match fuel with
  | O => None
  | S fuel =>
      match ts with
      | TWord x :: TPunct 61%N :: rest =>
          if is_variable x then
            '(e, rest') ← parse_assignment fuel rest; Some (EAssign x e, rest')
          else None
      | _ => parse_unary fuel ts
      end
  end
with parse_unary (fuel : nat) (ts : list token) : option (expr * list token) :=
  match fuel with
  | O => None
  | S fuel =>
      match ts with
      | TNum n :: rest => Some (ELit (VNum (Double_of_Z n)), rest)
      | TStr s :: rest => Some (ELit (VStr s), rest)
      | TWord w :: rest =>
          if eqb_jstring w (js "typeof") then
            '(e, rest') ← parse_unary fuel rest; Some (ETypeof e, rest')
          else if eqb_jstring w (js "null") then Some (ELit VNull, rest)
          else if eqb_jstring w (js "undefined") then Some (ELit VUndefined, rest)
          else if eqb_jstring w (js "true") then Some (ELit (VBool true), rest)
          else if eqb_jstring w (js "false") then Some (ELit (VBool false), rest)
          else if eqb_jstring w (js "console") then
            match rest with
            | TPunct 46%N :: TWord m :: TPunct 40%N :: rest' =>
                level ← level_of m;
                '(args, rest'') ← parse_arguments fuel rest';
                Some (EConsole level args, rest'')
            | TPunct 46%N :: _ => None
            | _ => Some (EVar w, rest)
            end
          else if is_variable w then Some (EVar w, rest)
          else None
      | _ => None
      end
  end
with parse_arguments (fuel : nat) (ts : list token) : option (list expr * list token) :=
  match fuel with
  | O => None
  | S fuel =>
      match ts with
      | TPunct 41%N :: rest => Some ([], rest)
      | _ =>
          '(e, rest) ← parse_assignment fuel ts;
          match rest with
          | TPunct 41%N :: rest' => Some ([e], rest')
          | TPunct 44%N :: (TPunct 41%N :: _) => None
          | TPunct 44%N :: rest' =>
              '(es, rest'') ← parse_arguments fuel rest'; Some (e :: es, rest'')
          | _ => None
          end
      end
  end.

Fixpoint parse_statements (fuel : nat) (ts : list token) : option (list stmt) :=
  match fuel with
  | O => None
  | S fuel =>
      match ts with
      | [] => Some []
      | TPunct 59%N :: rest => p ← parse_statements fuel rest; Some (SEmpty :: p)
      | _ =>
          '(s, rest) ←
            match ts with
            | TWord w :: ts' =>
                if eqb_jstring w (js "throw") then
                  '(e, rest) ← parse_assignment (2 * length ts) ts'; Some (SThrow e, rest)
                else '(e, rest) ← parse_assignment (2 * length ts) ts; Some (SExpr e, rest)
            | _ => '(e, rest) ← parse_assignment (2 * length ts) ts; Some (SExpr e, rest)
            end;
          match rest with
          | [] => Some [s]
          | TPunct 59%N :: rest' => p ← parse_statements fuel rest'; Some (s :: p)
          | _ => None
          end
      end
  end.

(** A string literal ['use strict'] may be a directive, which would put the
    script in strict mode. *)
Definition is_directive (t : token) : bool :=
  match t with
  | TStr s => eqb_jstring s (js "use strict")
  | _ => false
  end.

Definition parse (code : jstring) : option (list stmt) :=
  ts ← lex Start code;
  if existsb is_directive ts then None
  else parse_statements (S (length ts)) ts.

Definition ReferenceError (x : jstring) : Value :=
  VError (js "ReferenceError") (x ++ js " is not defined").

(** The global object: its properties by name. *)
Abbreviation sandbox := (gmap jstring Value).

(** Evaluation of [e] in continuation-passing style: [k] receives the value
    and the global object; an exception ends the script. *)
Fixpoint eval (e : expr) (sb : sandbox) (k : Value -> sandbox -> Guest sandbox)
    : Guest sandbox :=
  match e with
  | ELit v => k v sb
  | EVar x =>
      match sb !! x with
      | Some v => k v sb
      | None => Finished (Thrown (ReferenceError x)) sb
      end
  | EAssign x e' => eval e' sb (fun v sb' => k v (<[x := v]> sb'))
  | ETypeof (EVar x) =>
      k (VStr (from_option typeof (js "undefined") (sb !! x))) sb
  | ETypeof e' => eval e' sb (fun v sb' => k (VStr (typeof v)) sb')
  | EConsole level args =>
      match sb !! js "console" with
      | Some (VConsole output) =>
          (fix eval_arguments (es : list expr) (sb : sandbox)
               (k' : list Value -> sandbox -> Guest sandbox) : Guest sandbox :=
             match es with
             | [] => k' [] sb
             | e' :: es' =>
                 eval e' sb (fun v sb' =>
                   eval_arguments es' sb' (fun vs sb'' => k' (v :: vs) sb''))
             end)
            args sb
            (fun vs sb' =>
               ConsoleCall output level vs (fun answer =>
                 match answer with
                 | Returned v => k v sb'
                 | Thrown exn => Finished (Thrown exn) sb'
                 end))
      | _ => Finished (Thrown (ReferenceError (js "console"))) sb
      end
  end.

(** The statements in order; the script completes with the value of its last
    expression statement. *)
Fixpoint exec (p : list stmt) (completion : Value) (sb : sandbox) : Guest sandbox :=
  match p with
  | [] => Finished (Returned completion) sb
  | SEmpty :: p' => exec p' completion sb
  | SExpr e :: p' => eval e sb (fun v sb' => exec p' v sb')
  | SThrow e :: _ => eval e sb (fun v sb' => Finished (Thrown v) sb')
  end.

(** [vm.run(code)]: compile, then run in the context. *)
Definition run (sb : sandbox) (code : jstring) : Guest sandbox :=
  match parse code with
  | Some p => exec p VUndefined sb
  | None => Finished (Thrown (VError (js "SyntaxError") (js "Invalid or unexpected token"))) sb
  end.

End MiniJS.

(** [JSON.parse] on every text, by the grammar of JSON in ECMAScript: white
    space, the three literal names, numbers with fraction and exponent
    (rounded to the nearest double), strings with their escapes, arrays and
    objects. The wording of the message for a malformed text differs between
    versions of V8; it is here the one of Node 18 ("Unexpected token } in
    JSON at position 1"), and nothing below depends on it. *)
Module JSONText.

Inductive parsed (A : Type) :=
| Ok (a : A) (rest : jstring) (pos : Z)
| Fail (message : jstring).
Arguments Ok {A} a rest pos.
Arguments Fail {A} message.

(** What the parser reports when it cannot go on at [s], the rest of the
    text from position [pos]. *)
Definition unexpected_message (s : jstring) (pos : Z) : jstring :=
  match s with
  | [] => js "Unexpected end of JSON input"
  | c :: _ =>
      (if is_digit c || (c =? 45)%N then js "Unexpected number"
       else if (c =? 34)%N then js "Unexpected string"
       else js "Unexpected token " ++ [c])
      ++ js " in JSON at position " ++ Number_toString pos
  end.

Definition unexpected {A : Type} (s : jstring) (pos : Z) : parsed A :=
  Fail (unexpected_message s pos).

Definition is_space (c : N) : bool :=
  ((c =? 32) || (c =? 9) || (c =? 10) || (c =? 13))%N.

Fixpoint skip (s : jstring) (pos : Z) : jstring * Z :=
  match s with
  | c :: s' => if is_space c then skip s' (pos + 1) else (s, pos)
  | [] => ([], pos)
  end.

(** The rest of a literal name ([null], [true], [false]). *)
Fixpoint literal (name : jstring) (j : Json) (s : jstring) (pos : Z) : parsed Json :=
  match name with
  | [] => Ok j s pos
  | a :: name' =>
      match s with
      | c :: s' => if (a =? c)%N then literal name' j s' (pos + 1) else unexpected s pos
      | [] => unexpected s pos
      end
  end.

(** The code unit that a single-character escape denotes. *)
Definition escape (c : N) : option N :=
  (if (c =? 34) || (c =? 92) || (c =? 47) then Some c   (* quote, backslash, slash *)
   else if c =? 98 then Some 8                            (* b *)
   else if c =? 102 then Some 12                          (* f *)
   else if c =? 110 then Some 10                          (* n *)
   else if c =? 114 then Some 13                          (* r *)
   else if c =? 116 then Some 9                           (* t *)
   else None)%N.

Definition hex_value (c : N) : option N :=
  (if is_digit c then Some (c - 48)
   else if (97 <=? c) && (c <=? 102) then Some (c - 87)
   else if (65 <=? c) && (c <=? 70) then Some (c - 55)
   else None)%N.

(** Where the scanner of a string stands: in plain text, after a backslash,
    or in the four hexadecimal digits after [u], [remaining] of them to
    come. *)
Inductive in_string :=
| Plain
| Escaped
| Unicode (remaining : nat) (unit : N).

(** The characters of a string after its opening quote. *)
Fixpoint characters (st : in_string) (acc : jstring) (s : jstring) (pos : Z)
    : parsed jstring :=
  match s with
  | [] => unexpected s pos
  | c :: s' =>
      match st with
      | Plain =>
          if (c =? 34)%N then Ok acc s' (pos + 1)
          else if (c =? 92)%N then characters Escaped acc s' (pos + 1)
          else if (c <? 32)%N then unexpected s pos
          else characters Plain (acc ++ [c]) s' (pos + 1)
      | Escaped =>
          if (c =? 117)%N then characters (Unicode 4 0) acc s' (pos + 1)
          else
            match escape c with
            | Some u => characters Plain (acc ++ [u]) s' (pos + 1)
            | None => unexpected s pos
            end
      | Unicode remaining unit =>
          match hex_value c, remaining with
          | Some d, 1%nat => characters Plain (acc ++ [16 * unit + d]%N) s' (pos + 1)
          | Some d, S n => characters (Unicode n (16 * unit + d)) acc s' (pos + 1)
          | _, _ => unexpected s pos
          end
      end
  end.

(** A run of digits: its value after [acc], the count of its digits after
    [count], and what follows. *)
Fixpoint digits (acc count : Z) (s : jstring) (pos : Z) : Z * Z * jstring * Z :=
  match s with
  | c :: s' =>
      if is_digit c then digits (10 * acc + (Z.of_N c - 48)) (count + 1) s' (pos + 1)
      else (acc, count, s, pos)
  | [] => (acc, count, [], pos)
  end.

(** An optional fraction after the integer part [int]: the digits of both
    as one integer, and the count of those of the fraction. *)
Definition fraction (int : Z) (s : jstring) (pos : Z) : parsed (Z * Z) :=
  match s with
  | 46%N :: s' =>
      let '(m, n, rest, pos') := digits int 0 s' (pos + 1) in
      if n =? 0 then unexpected rest pos' else Ok (m, n) rest pos'
  | _ => Ok (int, 0) s pos
  end.

(** An optional exponent. *)
Definition exponent (s : jstring) (pos : Z) : parsed Z :=
  match s with
  | c :: s' =>
      if (c =? 101)%N || (c =? 69)%N then
        let '(negative, s1, pos1) :=
          match s' with
          | 45%N :: s1 => (true, s1, pos + 2)
          | 43%N :: s1 => (false, s1, pos + 2)
          | _ => (false, s', pos + 1)
          end in
        let '(e, n, rest, pos') := digits 0 0 s1 pos1 in
        if n =? 0 then unexpected rest pos'
        else Ok (if negative : bool then - e else e) rest pos'
      else Ok 0 s pos
  | [] => Ok 0 s pos
  end.

(** A number whose sign has been read: the integer part is [0] or begins
    with another digit. *)
Definition number (negative : bool) (s : jstring) (pos : Z) : parsed Json :=
  match s with
  | [] => unexpected s pos
  | c :: s' =>
      if negb (is_digit c) then unexpected s pos
      else
        let '(int, _, rest, pos1) :=
          if (c =? 48)%N then (0, 1, s', pos + 1)
          else digits (Z.of_N c - 48) 1 s' (pos + 1) in
        match fraction int rest pos1 with
        | Fail m => Fail m
        | Ok (m, n) rest2 pos2 =>
            match exponent rest2 pos2 with
            | Fail m' => Fail m'
            | Ok e rest3 pos3 => Ok (JNum (Double_of_decimal negative m (e - n))) rest3 pos3
            end
        end
  end.

(** [o[k] = v] on the properties of an object under construction. *)
Fixpoint define (k : jstring) (v : Json) (props : list (jstring * Json))
    : list (jstring * Json) :=
  match props with
  | [] => [(k, v)]
  | (k', v') :: rest =>
      if eqb_jstring k k' then (k, v) :: rest else (k', v') :: define k v rest
  end.

(** The array index a key denotes, if it is one. *)
Definition array_index (k : jstring) : option Z :=
  match k with
  | [] => None
  | [48%N] => Some 0
  | 48%N :: _ => None
  | _ =>
      if forallb is_digit k && (length k <=? 10)%nat
         && (MiniJS.decimal k <=? 4294967294)
      then Some (MiniJS.decimal k) else None
  end.

Fixpoint insert_index (i : Z) (kv : jstring * Json) (sorted : list (Z * (jstring * Json)))
    : list (Z * (jstring * Json)) :=
  match sorted with
  | [] => [(i, kv)]
  | (i', kv') :: rest =>
      if i <? i' then (i, kv) :: sorted else (i', kv') :: insert_index i kv rest
  end.

(** The order in which an object lists its properties: array indices
    ascending, then the other keys as they were created. *)
Definition ordered (props : list (jstring * Json)) : list (jstring * Json) :=
  (snd <$> foldl (fun sorted kv =>
                    match array_index (fst kv) with
                    | Some i => insert_index i kv sorted
                    | None => sorted
                    end) [] props)
  ++ filter (fun kv => array_index (fst kv) = None) props.

Fixpoint value (fuel : nat) (s : jstring) (pos : Z) : parsed Json :=
  match fuel with
  | O => unexpected s pos
  | S fuel =>
      let '(s, pos) := skip s pos in
      match s with
      | [] => unexpected s pos
      | c :: s' =>
          if (c =? 110)%N then literal (js "ull") JNull s' (pos + 1)
          else if (c =? 116)%N then literal (js "rue") (JBool true) s' (pos + 1)
          else if (c =? 102)%N then literal (js "alse") (JBool false) s' (pos + 1)
          else if (c =? 34)%N then
            match characters Plain [] s' (pos + 1) with
            | Ok str rest pos' => Ok (JStr str) rest pos'
            | Fail m => Fail m
            end
          else if (c =? 45)%N then number true s' (pos + 1)
          else if is_digit c then number false s pos
          else if (c =? 91)%N then
            let '(s1, pos1) := skip s' (pos + 1) in
            match s1 with
            | 93%N :: rest => Ok (JArr []) rest (pos1 + 1)
            | _ => elements fuel [] s1 pos1
            end
          else if (c =? 123)%N then
            let '(s1, pos1) := skip s' (pos + 1) in
            match s1 with
            | 125%N :: rest => Ok (JObj []) rest (pos1 + 1)
            | _ => members fuel [] s1 pos1
            end
          else unexpected s pos
      end
  end
with elements (fuel : nat) (acc : list Json) (s : jstring) (pos : Z) : parsed Json :=
  match fuel with
  | O => unexpected s pos
  | S fuel =>
      match value fuel s pos with
      | Fail m => Fail m
      | Ok j rest pos' =>
          let '(s1, pos1) := skip rest pos' in
          match s1 with
          | 44%N :: s2 => elements fuel (acc ++ [j]) s2 (pos1 + 1)
          | 93%N :: s2 => Ok (JArr (acc ++ [j])) s2 (pos1 + 1)
          | _ => unexpected s1 pos1
          end
      end
  end
with members (fuel : nat) (acc : list (jstring * Json)) (s : jstring) (pos : Z)
    : parsed Json :=
  match fuel with
  | O => unexpected s pos
  | S fuel =>
      let '(s0, pos0) := skip s pos in
      match s0 with
      | 34%N :: s1 =>
          match characters Plain [] s1 (pos0 + 1) with
          | Fail m => Fail m
          | Ok k rest pos1 =>
              let '(s2, pos2) := skip rest pos1 in
              match s2 with
              | 58%N :: s3 =>
                  match value fuel s3 (pos2 + 1) with
                  | Fail m => Fail m
                  | Ok j rest' pos3 =>
                      let '(s4, pos4) := skip rest' pos3 in
                      match s4 with
                      | 44%N :: s5 => members fuel (define k j acc) s5 (pos4 + 1)
                      | 125%N :: s5 => Ok (JObj (ordered (define k j acc))) s5 (pos4 + 1)
                      | _ => unexpected s4 pos4
                      end
                  end
              | _ => unexpected s2 pos2
              end
          end
      | _ => unexpected s0 pos0
      end
  end.

(** [JSON.parse(text)] *)
Definition parse (text : jstring) : Json + jstring :=
  match value (S (length text)) text 0 with
  | Fail m => inr m
  | Ok j rest pos =>
      match skip rest pos with
      | ([], _) => inl j
      | (s, pos') => inr (unexpected_message s pos')
      end
  end.

End JSONText.

(** The reference platform. The console that [createSafeSandbox] installs is
    replaced by [executeJavaScript] before any script runs, so a fresh
    context is taken without it. *)
Definition reference : Runtime := {|
  Sandbox := MiniJS.sandbox;
  VM_new := fun _ => ∅;
  Sandbox_set_console := fun output sb => <[js "console" := VConsole output]> sb;
  VM_run := MiniJS.run;
  JSON_parse := JSONText.parse
|}.

(** The default configuration: no environment variable set. *)
Definition default_runner : @CodeRunner reference := constructor None None.

(** The text of [n] read back as a decimal integer. *)
Definition as_decimal (s : jstring) : option Z :=
  Z.of_int <$> NilEmpty.int_of_string (string_of_list_ascii (ascii_of_N <$> s)).

(** An object that refers to itself and whose [toString] raises, as the
    guest makes it with
    [var o = {toString: function () { throw new Error('no') }}; o.self = o]:
    serializing it raises (the structure is circular), and so does converting
    it to a string. *)
Definition self_referring : Value :=
  VOpaque {| callable := false;
             stringify_result := Thrown (TypeError "Converting circular structure to JSON");
             toString_result := Thrown (Error (js "no"));
             message_result := Returned VUndefined |}.

(** ** Validation

    [validateCode] and the validators behind it. [new Function(code)] parses
    [code] as the body of a function and builds the function without running
    it; all the validators see of it is whether it raises a SyntaxError, and
    with which message. *)

(** [(s.match(/r/g) || []).length]: the matches of [r] in [s], found left
    to right, each starting where the previous one ended. *)
Fixpoint count_from (r : regex) (skip : nat) (s : jstring) : nat :=
  match s with
  | [] => O
  | x :: s' =>
      match skip with
      | S n => count_from r n s'
      | O =>
          match match_here r s with
          | Some rest => S (count_from r (length s - length rest - 1)%nat s')
          | None => count_from r O s'
          end
      end
  end.

Definition String_match_count (s : jstring) (r : regex) : nat := count_from r O s.

Definition interface_head : regex :=                 (* /interface\s+\w+\s*{/ *)
  word "interface" ++
  [(is_whitespace, OneOrMore); (is_word, OneOrMore); (is_whitespace, ZeroOrMore);
   (chr "{", Once)].
Definition opening_tag : regex :=                    (* /<[^/][^>]*>/ *)
  [(chr "<", Once); (not_chr "/", Once); (not_chr ">", ZeroOrMore); (chr ">", Once)].
Definition closing_tag : regex :=                    (* /<\/[^>]*>/ *)
  [(chr "<", Once); (chr "/", Once); (not_chr ">", ZeroOrMore); (chr ">", Once)].

(** The object a validator returns; the answer of [validateCode] to an
    unknown language has no [warnings]. *)
Record ValidationResult := {
  isValid : bool;
  errors : list jstring;
  warnings : option (list jstring)
}.

Section Validation.
Context {platform : Runtime}.
(** [new Function(code)]: [None] when it returns, the message of the
    SyntaxError when it raises. *)
Variable Function_new : jstring -> option jstring.

Definition validateJavaScript (code : jstring) : ValidationResult :=
  match Function_new code with
  | None => {| isValid := true; errors := []; warnings := Some [] |}
  | Some message => {| isValid := false; errors := [message]; warnings := Some [] |}
  end.

Definition validateTypeScript (code : jstring) : ValidationResult :=
  let errors :=
    if String_includes code (js "interface") || String_includes code (js "type") then
      if (0 <? String_match_count code interface_head)%nat then
        let openBraces := String_match_count code [(chr "{", Once)] in
        let closeBraces := String_match_count code [(chr "}", Once)] in
        if negb (openBraces =? closeBraces)%nat
        then [js "Mismatched braces in TypeScript code"] else []
      else []
    else [] in
  match Function_new (strip_types code) with
  | None =>
      {| isValid := (length errors =? 0)%nat; errors := errors; warnings := Some [] |}
  | Some message =>
      {| isValid := false;
         errors := errors ++ [js "JavaScript execution failed: " ++ message];
         warnings := Some [] |}
  end.

Definition validateJSON (code : jstring) : ValidationResult :=
  match JSON_parse code with
  | inl _ => {| isValid := true; errors := []; warnings := Some [] |}
  | inr message => {| isValid := false; errors := [message]; warnings := Some [] |}
  end.

Definition validateHTML (code : jstring) : ValidationResult :=
  let warnings1 :=
    if negb (String_includes code (js "<html")) && negb (String_includes code (js "<body"))
    then [js "Missing HTML structure tags"] else [] in
  let openTags := String_match_count code opening_tag in
  let closeTags := String_match_count code closing_tag in
  let warnings2 :=
    if negb (openTags =? closeTags)%nat then [js "Possible unclosed HTML tags"] else [] in
  {| isValid := true; errors := []; warnings := Some (warnings1 ++ warnings2) |}.

Definition validateCSS (code : jstring) : ValidationResult :=
  {| isValid := true; errors := [];
     warnings :=
       Some (if negb (String_includes code (js "{")) || negb (String_includes code (js "}"))
             then [js "Missing CSS braces"] else []) |}.

Definition validatePython (code : jstring) : ValidationResult :=
  {| isValid := true; errors := [];
     warnings := Some [js "Python validation not yet implemented"] |}.

Definition validateMarkdown (code : jstring) : ValidationResult :=
  {| isValid := true; errors := []; warnings := Some [] |}.

(** [validateCode(code, language)]. No validator raises on a string, so the
    handler of [validateCode] is not reached. *)
Definition validateCode (code language : jstring) : ValidationResult :=
  if eqb_jstring language (js "javascript") then validateJavaScript code
  else if eqb_jstring language (js "typescript") then validateTypeScript code
  else if eqb_jstring language (js "json") then validateJSON code
  else if eqb_jstring language (js "html") then validateHTML code
  else if eqb_jstring language (js "css") then validateCSS code
  else if eqb_jstring language (js "python") then validatePython code
  else if eqb_jstring language (js "markdown") then validateMarkdown code
  else {| isValid := false; errors := [js "Unsupported language: " ++ language];
          warnings := None |}.

End Validation.

(** ** The routes of the service (routes/code.js) *)

(** An entry of the list that [GET /languages] answers with. *)
Module Language.
Record t := { id : jstring; name : jstring; version : jstring; icon : jstring }.
End Language.

Definition supportedLanguages : list Language.t :=
  [ {| Language.id := js "javascript"; Language.name := js "JavaScript"; Language.version := js "ES2020";
       Language.icon := [9889%N] |};
    {| Language.id := js "typescript"; Language.name := js "TypeScript"; Language.version := js "4.9";
       Language.icon := [55357%N; 56631%N] |};
    {| Language.id := js "python"; Language.name := js "Python"; Language.version := js "3.9";
       Language.icon := [55357%N; 56333%N] |};
    {| Language.id := js "html"; Language.name := js "HTML"; Language.version := js "5";
       Language.icon := [55356%N; 57104%N] |};
    {| Language.id := js "css"; Language.name := js "CSS"; Language.version := js "3";
       Language.icon := [55356%N; 57256%N] |};
    {| Language.id := js "json"; Language.name := js "JSON"; Language.version := js "RFC 7159";
       Language.icon := [55357%N; 56516%N] |};
    {| Language.id := js "markdown"; Language.name := js "Markdown"; Language.version := js "CommonMark";
       Language.icon := [55357%N; 56541%N] |} ].

(** What a handler does with a request: it answers with [res.json(body)],
    or hands an error to [next]. *)
Inductive Handled :=
| Answered (body : list (jstring * Value)) (data : list (jstring * Value))
| Next (error : Value).

(** [POST /execute]: [body] are the properties of the answer other than
    [data], [data] those of its [data]; [timestamp] is
    [new Date().toISOString()]. An absent [input] takes the default of
    [executeCode], the empty string. *)
Definition post_execute {platform : Runtime} (codeRunner : CodeRunner)
    (startTime endTime : Z) (timestamp : jstring)
    (code language : jstring) (input : option jstring) : Handled * CodeRunner :=
  match executeCode codeRunner startTime endTime code language (default [] input) with
  | (Returned result, codeRunner') =>
      (Answered [(js "success", VBool true)]
         [(js "output", get result "output");
          (js "error", get result "error");
          (js "executionTime", get result "executionTime");
          (js "language", VStr language);
          (js "timestamp", VStr timestamp)],
       codeRunner')
  | (Thrown error, codeRunner') => (Next error, codeRunner')
  end.

(** ** Calls in sequence

    The module exports one service ([module.exports = new CodeRunner()]),
    which answers one call of [executeCode] after the other. A call, with
    the two readings of the clock it makes: *)
Record Call := {
  call_startTime : Z;
  call_endTime : Z;
  call_code : jstring;
  call_language : jstring;
  call_input : jstring
}.

(** The service after it has answered [calls], in this order. *)
Definition after_calls {platform : Runtime} (this : CodeRunner) (calls : list Call)
    : CodeRunner :=
  foldl (fun this c =>
           snd (executeCode this (call_startTime c) (call_endTime c)
                  (call_code c) (call_language c) (call_input c)))
        this calls.

(** A language whose executor does not run the code it is given. *)
Definition runs_no_script (language : jstring) : Prop :=
  language ≠ js "javascript" /\ language ≠ js "typescript".

(** ** The lines a script logs

    A value is plain when formatting it runs no code of the guest: anything
    but an opaque object. *)
Definition plain (v : Value) : bool :=
  match v with
  | VOpaque _ => false
  | _ => true
  end.

(** What a run of the guest logs through the console of its own call, as a
    relation: [logs output g n lines result sandbox] says that the run [g],
    started when the array [output] of the call holds [n] lines, calls only
    the console methods over [output], each time with plain arguments, adds
    [lines] to the array in this order, and ends in [result] and
    [sandbox]. *)
Inductive logs {S : Type} (output : nat)
    : Guest S -> Z -> list jstring -> Completion Value -> S -> Prop :=
| logs_finished result sandbox n :
    logs output (Finished result sandbox) n [] result sandbox
| logs_line level args resume n line lines result sandbox :
    forallb plain args = true ->
    console_line level args = Returned line ->
    logs output (resume (Returned (VNum (Double_of_Z (n + 1))))) (n + 1) lines result sandbox ->
    logs output (ConsoleCall output level args resume) n (line :: lines) result sandbox.

(** ** Where the html formatter breaks a line

    [tags_meet s] is what follows the first [<] of [s] when [s] begins with
    [>], white space and [<]. *)
Definition tags_meet (s : jstring) : option jstring :=
  match s with
  | 62%N :: t =>
      match String_trimStart t with
      | 60%N :: rest => Some rest
      | _ => None
      end
  | _ => None
  end.

(** The replacement of the html formatter. *)
Definition break_tags (s : jstring) : jstring :=
  String_replace s between_tags (js ">" ++ [10%N] ++ js "<").

(** ** Observations on a text

    The code units of [s] that are not white space. *)
Definition visible (s : jstring) : jstring :=
  List.filter (fun c => negb (is_whitespace c)) s.

(** The spaces that stand immediately before the first [{] of [s], counted
    from [n]; [None] when [s] has no [{]. *)
Fixpoint spaces_before_brace (n : nat) (s : jstring) : option nat :=
  match s with
  | [] => None
  | x :: t =>
      if (x =? 123)%N then Some n
      else if (x =? 32)%N then spaces_before_brace (S n) t
      else spaces_before_brace O t
  end.

(** What follows the first [>] of [s]. *)
Fixpoint after_gt (s : jstring) : option jstring :=
  match s with
  | [] => None
  | x :: t => if (x =? 62)%N then Some t else after_gt t
  end.

(** The two patterns of the html validator are [<], one code unit of a
    class [c], and what follows up to the first [>]. *)
Definition tag (c : N -> bool) : regex :=
  [(chr "<", Once); (c, Once); (not_chr ">", ZeroOrMore); (chr ">", Once)].

(** * Properties *)

(** Case analysis on what a [match] or [if] of the goal inspects. *)
Ltac break_match :=
  repeat match goal with
         | |- context [match ?x with _ => _ end] => destruct x; simpl
         end.

(** Case analysis on the pair an executor returns. *)
Ltac destruct_attempt :=
  match goal with
  | |- context [match ?a with (_, _) => _ end] => destruct a as [[? | ?] ?]
  end.

Lemma eqb_jstring_neq (a b : jstring) : a ≠ b -> eqb_jstring a b = false.
Proof. intros H. unfold eqb_jstring. by apply bool_decide_eq_false_2. Qed.

Lemma length_guard_passes (n m : Z) : n <= m -> (n >? m) = false.
Proof. intros H. rewrite Z.gtb_ltb. by apply Z.ltb_ge. Qed.

(** ** Numbers, at well-known instances *)

(** What JavaScript prints for the decimals 1.5, 0.1, 1e21, 1e-7, 0.000001,
    2^53 + 1, 12345678901234567890, 123456789012345680000, 5e-324, 1e23,
    1.7976931348623157e308 and 2e308. *)
Lemma Double_toString_examples :
  (fun d => Double_toString (Double_of_decimal false (fst d) (snd d)))
    <$> [(15, -1); (1, -1); (1, 21); (1, -7); (1, -6); (9007199254740993, 0);
         (12345678901234567890, 0); (123456789012345680000, 0); (5, -324); (1, 23);
         (17976931348623157, 292); (2, 308)]
  = js <$> ["1.5"; "0.1"; "1e+21"; "1e-7"; "0.000001"; "9007199254740992";
            "12345678901234567000"; "123456789012345680000"; "5e-324"; "1e+23";
            "1.7976931348623157e+308"; "Infinity"]%string.
Proof. vm_compute. reflexivity. Qed.

(** ** The sandbox across calls *)

Section Sandbox.
Context {platform : Runtime}.
Implicit Types (this : CodeRunner) (code language input : jstring).

Lemma executeJavaScript_config this code input :
  maxCodeLength (snd (executeJavaScript this code input)) = maxCodeLength this.
Proof.
  unfold executeJavaScript.
  destruct (serve _ _) as [[arrays1 [result | e]] sandbox']; [| done].
  destruct result; try done; by break_match.
Qed.

Lemma executeTypeScript_config this code input :
  maxCodeLength (snd (executeTypeScript this code input)) = maxCodeLength this.
Proof.
  unfold executeTypeScript.
  destruct (_ || _);
    match goal with
    | |- context [executeJavaScript ?t ?c ?i] =>
        pose proof (executeJavaScript_config t c i) as H;
        destruct (executeJavaScript t c i) as [[? | ?] ?]
    end; exact H.
Qed.

(** No call changes the length limit of the service. *)
Lemma executeCode_config this startTime endTime code language input :
  maxCodeLength (snd (executeCode this startTime endTime code language input))
    = maxCodeLength this.
Proof.
  unfold executeCode.
  match goal with
  | |- context [match ?a with (_, _) => _ end] =>
      assert (maxCodeLength (snd a) = maxCodeLength this) as H;
      [| by destruct a as [[? | ?] ?]]
  end.
  repeat match goal with
         | |- context [if ?b then _ else _] => destruct b
         end;
    first [ done
          | apply executeJavaScript_config
          | apply executeTypeScript_config
          | by unfold executeJSON; destruct (JSON_parse code) ].
Qed.

(** A call in a language other than javascript and typescript reads
    nothing of the service but its length limit, and leaves the service as
    it was. *)
Lemma executeCode_outside_sandbox
    this1 this2 start1 end1 start2 end2 code language input :
  maxCodeLength this1 = maxCodeLength this2 ->
  runs_no_script language ->
  exists r1 r2,
    executeCode this1 start1 end1 code language input = (Returned r1, this1)
    /\ executeCode this2 start2 end2 code language input = (Returned r2, this2)
    /\ get r1 "output" = get r2 "output"
    /\ get r1 "error" = get r2 "error"
    /\ get r1 "success" = get r2 "success".
Proof.
  intros Hmax [Hjs Hts]. unfold executeCode. rewrite Hmax.
  rewrite (eqb_jstring_neq _ _ Hjs), (eqb_jstring_neq _ _ Hts).
  unfold executePython, executeHTML, executeCSS, executeJSON, executeMarkdown.
  repeat match goal with
         | |- context [if ?b then _ else _] => destruct b
         end;
    try destruct (JSON_parse code);
    simpl; do 2 eexists; repeat split.
Qed.

Lemma after_calls_outside this (calls : list Call) :
  Forall (fun c => runs_no_script (call_language c)) calls ->
  after_calls this calls = this.
Proof.
  induction 1 as [| c calls Hc _ IH]; [done |].
  unfold after_calls in *. simpl.
  destruct (executeCode_outside_sandbox this this (call_startTime c) (call_endTime c)
              (call_startTime c) (call_endTime c) (call_code c) (call_language c)
              (call_input c) eq_refl Hc) as (r & _ & -> & _).
  exact IH.
Qed.

(** C1 (amended): on a service that has run no javascript and no typescript
    code since it was constructed, whatever calls in other languages it has
    answered before and in between, two Execute calls with identical (code,
    language, input) in a language other than javascript and typescript
    produce identical output, error and success, whatever the clock says,
    and the service is still as it was constructed. (No script has run, so
    the built-ins of the host that the sandbox shares are as the host made
    them.) *)
Theorem executeCode_deterministic_before_scripts
    (CODE_EXECUTION_TIMEOUT MAX_CODE_LENGTH : option Z) (earlier between : list Call)
    start1 end1 start2 end2 code language input :
  runs_no_script language ->
  Forall (fun c => runs_no_script (call_language c)) earlier ->
  Forall (fun c => runs_no_script (call_language c)) between ->
  let fresh := constructor CODE_EXECUTION_TIMEOUT MAX_CODE_LENGTH in
  let first := executeCode (after_calls fresh earlier) start1 end1 code language input in
  let second :=
    executeCode (after_calls (snd first) between) start2 end2 code language input in
  snd second = fresh
  /\ exists r1 r2,
       fst first = Returned r1
       /\ fst second = Returned r2
       /\ get r1 "output" = get r2 "output"
       /\ get r1 "error" = get r2 "error"
       /\ get r1 "success" = get r2 "success".
Proof.
  intros Hlanguage Hearlier Hbetween fresh first second. subst first second.
  rewrite (after_calls_outside _ _ Hearlier).
  destruct (executeCode_outside_sandbox fresh fresh start1 end1 start2 end2
              code language input eq_refl Hlanguage) as (r1 & r2 & H1 & H2 & Hfields).
  rewrite H1. simpl. rewrite (after_calls_outside _ _ Hbetween), H2. simpl.
  split; [reflexivity |]. by exists r1, r2.
Qed.

(** The context a javascript call leaves in the service is the one its
    script finished in. *)
Lemma executeJavaScript_vm this script input :
  vm (snd (executeJavaScript this script input))
  = (serve (VM_run (Sandbox_set_console (length (arrays this)) (vm this)) script)
       (arrays this ++ [[]])).2.
Proof.
  unfold executeJavaScript.
  destruct (serve _ _) as [[arrays1 [result | e]] sandbox']; [| done].
  destruct result; try done; by break_match.
Qed.

(** C2 (amended): no sandbox context is made for a call. A javascript call
    runs its code in the context the service holds, as earlier calls left it,
    after rebinding only the console of that context to closures over an
    output array allocated for the call, and the context as the code leaves
    it stays in the service for the next call; a typescript call does the
    same with the code it derives; a call in any other language leaves the
    service untouched. *)
Theorem executeCode_reuses_sandbox this startTime endTime code language input :
  String_length code <= maxCodeLength this ->
  let output := length (arrays this) in
  let context := Sandbox_set_console output (vm this) in
  let after script := (serve (VM_run context script) (arrays this ++ [[]])).2 in
  let this' := snd (executeCode this startTime endTime code language input) in
  arrays this !! output = None
  /\ (language = js "javascript" -> vm this' = after code)
  /\ (language = js "typescript" ->
        vm this' =
          after (if String_includes code (js "interface")
                    || String_includes code (js "type")
                    || String_includes code (js ":")
                 then strip_types code else code))
  /\ (language ≠ js "javascript" -> language ≠ js "typescript" -> this' = this).
Proof.
  intros Hlen output context after this'.
  split; [by apply lookup_ge_None_2 |].
  subst this' after context output. unfold executeCode.
  rewrite (length_guard_passes _ _ Hlen).
  split; [| split].
  - intros ->. simpl. rewrite <- (executeJavaScript_vm this code input).
    destruct (executeJavaScript this code input) as [[out | err] this1]; [done |].
    by destruct (get_message err).
  - intros ->. simpl. unfold executeTypeScript.
    destruct (_ || _); rewrite <- (executeJavaScript_vm this _ input);
      match goal with
      | |- context [executeJavaScript ?t ?c ?i] =>
          destruct (executeJavaScript t c i) as [[out | err] this1]
      end; simpl; try done;
      by destruct (get_message err) as [m | e]; simpl; [destruct (ToString m) |].
  - intros Hnjs Hnts.
    rewrite (eqb_jstring_neq _ _ Hnjs), (eqb_jstring_neq _ _ Hnts).
    unfold executePython, executeHTML, executeCSS, executeJSON, executeMarkdown.
    repeat match goal with
           | |- context [if ?b then _ else _] => destruct b
           end;
      try destruct (JSON_parse code); reflexivity.
Qed.

End Sandbox.

(** C1, at an instance: a python call on the default service, once after a
    json call and once more after a css call and a call in an unknown
    language. *)
Lemma executeCode_deterministic_before_scripts_witness :
  runs_no_script (js "python")
  /\ exists r1 r2,
       fst (executeCode
              (after_calls default_runner
                 [{| call_startTime := 0; call_endTime := 1; call_code := js "[1.50]";
                     call_language := js "json"; call_input := [] |}])
              100 105 (js "print(1)") (js "python") []) = Returned r1
       /\ fst (executeCode
                 (after_calls
                    (snd (executeCode
                            (after_calls default_runner
                               [{| call_startTime := 0; call_endTime := 1;
                                   call_code := js "[1.50]";
                                   call_language := js "json"; call_input := [] |}])
                            100 105 (js "print(1)") (js "python") []))
                    [{| call_startTime := 110; call_endTime := 111; call_code := js "a{}";
                        call_language := js "css"; call_input := [] |};
                     {| call_startTime := 120; call_endTime := 121; call_code := js "puts 1";
                        call_language := js "ruby"; call_input := [] |}])
                 200 207 (js "print(1)") (js "python") []) = Returned r2
       /\ get r1 "output" = get r2 "output"
       /\ get r1 "error" = get r2 "error"
       /\ get r1 "success" = get r2 "success".
Proof.
  assert (H : forall l, l = js "python" \/ l = js "json" \/ l = js "css" \/ l = js "ruby" ->
                        runs_no_script l).
  { intros l [-> | [-> | [-> | ->]]]; split; discriminate. }
  split; [apply H; auto |].
  refine (proj2 (executeCode_deterministic_before_scripts (platform := reference)
                   None None _ _ 100 105 200 207 (js "print(1)") (js "python") []
                   (H _ (or_introl eq_refl)) _ _)).
  - repeat constructor; apply H; simpl; auto.
  - repeat constructor; apply H; simpl; auto.
Defined.

(** C1 as stated fails for javascript: the same script, run twice, prints
    "undefined" and then "string", because the assignment made by the first
    call is still in the sandbox when the second call runs. *)
Lemma executeCode_javascript_not_deterministic :
  let code := js "x = typeof x" in
  let first := executeCode default_runner 100 105 code (js "javascript") [] in
  let second := executeCode (snd first) 100 105 code (js "javascript") [] in
  exists r1 r2,
    fst first = Returned r1
    /\ fst second = Returned r2
    /\ get r1 "success" = VBool true
    /\ get r2 "success" = VBool true
    /\ get r1 "output" = VStr (js "undefined")
    /\ get r2 "output" = VStr (js "string").
Proof. do 2 eexists. split; [vm_compute; reflexivity |]. repeat split. Qed.

(** C2, at an instance: the second of two javascript calls on the default
    runner. *)
Lemma executeCode_reuses_sandbox_witness :
  let this := snd (executeCode default_runner 0 1 (js "x = 'kept'") (js "javascript") []) in
  let output := length (arrays this) in
  let context := Sandbox_set_console output (vm this) in
  let this' := snd (executeCode this 100 105 (js "x") (js "javascript") []) in
  String_length (js "x") <= maxCodeLength this
  /\ arrays this !! output = None
  /\ vm this' = (serve (VM_run context (js "x")) (arrays this ++ [[]])).2.
Proof.
  assert (H : String_length (js "x")
              <= maxCodeLength (snd (executeCode default_runner 0 1 (js "x = 'kept'")
                                       (js "javascript") [])))
    by (vm_compute; discriminate).
  split; [exact H |].
  destruct (executeCode_reuses_sandbox (platform := reference) _ 100 105 (js "x")
              (js "javascript") [] H) as (Hfresh & Hjs & _).
  split; [exact Hfresh | exact (Hjs eq_refl)].
Defined.

(** C2 as stated fails: the context is not made for the call. The script
    [x] fails on a service that has executed nothing, and succeeds, printing
    what an earlier call stored, on one that has: the global namespace of the
    earlier call is the one the later call runs in. Only the console binding
    is new (over the array 1 instead of the array 0). *)
Lemma sandbox_outlives_the_call :
  let earlier := executeCode default_runner 100 105 (js "x = 'kept'") (js "javascript") [] in
  let alone := executeCode default_runner 100 105 (js "x") (js "javascript") [] in
  let later := executeCode (snd earlier) 100 105 (js "x") (js "javascript") [] in
  exists r1 r2,
    fst alone = Returned r1
    /\ fst later = Returned r2
    /\ get r1 "success" = VBool false
    /\ get r1 "error" = VStr (js "x is not defined")
    /\ get r2 "success" = VBool true
    /\ get r2 "output" = VStr (js "kept")
    /\ vm (snd earlier) !! js "x" = Some (VStr (js "kept"))
    /\ vm (snd earlier) !! js "console" = Some (VConsole 0)
    /\ vm (snd later) !! js "console" = Some (VConsole 1).
Proof. do 2 eexists. split; [vm_compute; reflexivity |]. repeat split. Qed.

(** ** Failures *)

Section Failures.
Context {platform : Runtime}.
Implicit Types (this : CodeRunner) (code language input : jstring).

(** The formatter on the values that are described by their structure: the
    literal "null" and "undefined", the indented serialization of arrays and
    plain objects, the string conversion of booleans, numbers and strings. *)
Theorem formatOutput_on_data :
  formatOutput VNull = Returned (Some (js "null"))
  /\ formatOutput VUndefined = Returned (Some (js "undefined"))
  /\ (forall items, formatOutput (VArr items) = Returned (Some (Json_serialize [] (JArr items))))
  /\ (forall props, formatOutput (VObj props) = Returned (Some (Json_serialize [] (JObj props))))
  /\ (forall b, formatOutput (VBool b) = Returned (Some (if b then js "true" else js "false")))
  /\ (forall x, formatOutput (VNum x) = Returned (Some (Double_toString x)))
  /\ (forall s, formatOutput (VStr s) = Returned (Some s)).
Proof. repeat split. Qed.

(** The formatter raises only on an opaque object whose conversion to string
    raises, reached directly (a function) or after its serialization has
    raised too. *)
Theorem formatOutput_raises_only_on_opaque (value : Value) (e : Value) :
  formatOutput value = Thrown e ->
  exists o,
    value = VOpaque o
    /\ toString_result o = Thrown e
    /\ (callable o = true \/ exists e', stringify_result o = Thrown e').
Proof.
  destruct value as [| | b | n | s | items | props | name message | buffer | o];
    try discriminate.
  unfold formatOutput. simpl. intros H. exists o.
  destruct (callable o) eqn:Hcallable; simpl in H.
  - destruct (toString_result o) as [t | e0]; simpl in H; [discriminate |].
    injection H as ->. eauto.
  - destruct (stringify_result o) as [t | e0]; [discriminate |].
    destruct (toString_result o) as [t | e1]; simpl in H; [discriminate |].
    injection H as ->. eauto.
Qed.

(** On any platform: when the script throws [null] or [undefined], the
    javascript call is rejected, because the handler of [executeCode] reads
    [message] of what was thrown. *)
Lemma executeCode_rejects_without_message this startTime endTime code input exn :
  String_length code <= maxCodeLength this ->
  (serve (VM_run (Sandbox_set_console (length (arrays this)) (vm this)) code)
     (arrays this ++ [[]])).1.2 = Thrown exn ->
  exn = VNull \/ exn = VUndefined ->
  exists e, fst (executeCode this startTime endTime code (js "javascript") input) = Thrown e.
Proof.
  intros Hlen Hrun Hexn. unfold executeCode, executeJavaScript.
  rewrite (length_guard_passes _ _ Hlen). simpl.
  destruct (serve _ _) as [[arrays1 result] sandbox']. simpl in Hrun. subst result.
  destruct Hexn as [-> | ->]; simpl; eauto.
Qed.

End Failures.

(** C3 at its failing input: the script logs "hi" and then faults. The line
    reached the output array of the call (array 0), and the result carries an
    empty [output]: [executeCode] joins its own [output], which is assigned
    only when the executor returns. *)
Lemma partial_output_is_lost :
  let call := executeCode default_runner 100 105 (js "console.log('hi'); y")
                (js "javascript") [] in
  exists r,
    fst call = Returned r
    /\ get r "success" = VBool false
    /\ get r "error" = VStr (js "y is not defined")
    /\ get r "output" = VStr []
    /\ arrays (snd call) = [[Some (js "hi")]].
Proof. eexists. split; [vm_compute; reflexivity |]. repeat split. Qed.

(** C4 at its failing input: the script throws [null]; reading [message] of
    it in the handler of [executeCode] raises, and the call is rejected
    instead of returning a result. *)
Lemma executeCode_rejects_on_throw_null :
  fst (executeCode default_runner 100 105 (js "throw null") (js "javascript") [])
  = Thrown (TypeError "Cannot read properties of null (reading 'message')").
Proof. vm_compute. reflexivity. Qed.

(** A thrown value that is not an error leaves [error] undefined. *)
Lemma executeCode_error_undefined :
  exists r,
    fst (executeCode default_runner 100 105 (js "throw 1") (js "javascript") []) = Returned r
    /\ get r "success" = VBool false
    /\ get r "error" = VUndefined.
Proof. eexists. split; [vm_compute; reflexivity |]. repeat split. Qed.

(** C5 at its failing input: the formatter raises on an object that can be
    neither serialized nor converted to a string. *)
Lemma formatOutput_raises :
  formatOutput self_referring = Thrown (Error (js "no")).
Proof. reflexivity. Qed.

(** The only way for the formatter to raise, at that object. *)
Lemma formatOutput_raises_only_on_opaque_witness :
  exists o,
    self_referring = VOpaque o
    /\ toString_result o = Thrown (Error (js "no"))
    /\ (callable o = true \/ exists e', stringify_result o = Thrown e').
Proof.
  exact (formatOutput_raises_only_on_opaque self_referring (Error (js "no")) eq_refl).
Defined.

(** A script that logs a line and ends in an expression: the line, then the
    value of the expression. The value of a console call is the new length of
    the output array, so a script that ends in one prints that number too. *)
Lemma executeCode_console_capture :
  exists r1 r2,
    fst (executeCode default_runner 100 105 (js "console.log('hi'); 4")
           (js "javascript") []) = Returned r1
    /\ fst (executeCode default_runner 100 105 (js "console.error('a', 1); console.warn(null)")
              (js "javascript") []) = Returned r2
    /\ get r1 "success" = VBool true
    /\ get r1 "output" = VStr (js "hi" ++ [10%N] ++ js "4")
    /\ get r2 "success" = VBool true
    /\ get r2 "output" = VStr (js "ERROR: a 1" ++ [10%N] ++ js "WARN: null" ++ [10%N] ++ js "2").
Proof. do 2 eexists. split; [vm_compute; reflexivity |]. split; [vm_compute; reflexivity |]. repeat split. Qed.

(** ** TypeScript *)

(** C10: there is a script of the JavaScript fragment (so without any
    TypeScript construct) that contains a colon and for which Execute gives
    different output under typescript and under javascript: the string
    literal ['a:b'] prints "a:b" as javascript, and "a" as typescript, where
    the colon and the letter after it are removed as a type annotation before
    the script runs. *)
Theorem typescript_differs_from_javascript :
  exists code r_ts r_js,
    is_Some (MiniJS.parse code)
    /\ String_includes code (js ":") = true
    /\ strip_types code = js "'a'"
    /\ fst (executeCode default_runner 100 105 code (js "typescript") []) = Returned r_ts
    /\ fst (executeCode default_runner 100 105 code (js "javascript") []) = Returned r_js
    /\ get r_ts "success" = VBool true
    /\ get r_js "success" = VBool true
    /\ get r_ts "output" = VStr (js "a")
    /\ get r_js "output" = VStr (js "a:b")
    /\ get r_ts "output" ≠ get r_js "output".
Proof.
  exists (js "'a:b'"). do 2 eexists.
  split; [vm_compute; eauto |].
  split; [reflexivity |].
  split; [reflexivity |].
  split; [vm_compute; reflexivity |].
  split; [vm_compute; reflexivity |].
  repeat split. vm_compute. discriminate.
Qed.

(** ** JSON *)

Section JSON.
Context {platform : Runtime}.
Implicit Types (this : CodeRunner) (code language input : jstring).

(** C7 (amended): for code within the length limit, Execute with language
    json fails on malformed input with an empty output and, as error, the
    message of the parser behind the prefix "Invalid JSON: "; on well-formed
    input it succeeds, and its output is the indented re-serialization of the
    parsed value in a fenced block under the line "Valid JSON:". *)
Theorem executeCode_json this startTime endTime code input :
  String_length code <= maxCodeLength this ->
  exists r,
    executeCode this startTime endTime code (js "json") input = (Returned r, this)
    /\ match JSON_parse code with
       | inr message =>
           get r "success" = VBool false
           /\ get r "error" = VStr (js "Invalid JSON: " ++ message)
           /\ get r "output" = VStr []
       | inl parsed =>
           get r "success" = VBool true
           /\ get r "error" = VNull
           /\ get r "output" =
                VStr (js "Valid JSON:" ++ [10%N] ++ js "```json" ++ [10%N]
                      ++ Json_serialize [] parsed ++ [10%N] ++ js "```")
       end.
Proof.
  intros Hlen. unfold executeCode. rewrite (length_guard_passes _ _ Hlen).
  simpl. unfold executeJSON.
  destruct (JSON_parse code) as [parsed | message]; simpl;
    eexists; (split; [reflexivity | repeat split]).
Qed.

End JSON.

(** C7, at an instance: a well-formed text whose number is not written as
    JavaScript prints it. *)
Lemma executeCode_json_witness :
  String_length (js "[1.50,{}]") <= maxCodeLength default_runner
  /\ exists r,
       executeCode default_runner 100 105 (js "[1.50,{}]") (js "json") []
         = (Returned r, default_runner)
       /\ get r "success" = VBool true
       /\ get r "error" = VNull
       /\ get r "output" =
            VStr (js "Valid JSON:" ++ [10%N] ++ js "```json" ++ [10%N]
                  ++ (js "[" ++ [10%N] ++ js "  1.5," ++ [10%N] ++ js "  {}" ++ [10%N] ++ js "]")
                  ++ [10%N] ++ js "```").
Proof.
  assert (H : String_length (js "[1.50,{}]") <= maxCodeLength default_runner)
    by (vm_compute; discriminate).
  split; [exact H |].
  exact (executeCode_json (platform := reference) default_runner 100 105 (js "[1.50,{}]") [] H).
Defined.

(** C7 as stated fails: the error of the result is not the message of the
    parser as it is, it carries the prefix "Invalid JSON: ". *)
Lemma executeCode_json_error_is_prefixed :
  JSON_parse (Runtime := reference) (js "{") = inr (js "Unexpected end of JSON input")
  /\ exists r,
       fst (executeCode default_runner 100 105 (js "{") (js "json") []) = Returned r
       /\ get r "success" = VBool false
       /\ get r "error" = VStr (js "Invalid JSON: Unexpected end of JSON input")
       /\ get r "error" ≠ VStr (js "Unexpected end of JSON input").
Proof.
  split; [reflexivity |]. eexists. split; [vm_compute; reflexivity |].
  repeat split. vm_compute. discriminate.
Qed.

(** ** Formatting *)

Lemma String_trimStart_snoc (s : jstring) (c : N) :
  is_whitespace c = false -> exists t, String_trimStart (s ++ [c]) = t ++ [c].
Proof.
  intros Hc. induction s as [| a s IH]; simpl.
  - rewrite Hc. by exists [].
  - destruct (is_whitespace a); [exact IH | by exists (a :: s)].
Qed.

Lemma String_trim_snoc (s : jstring) (c : N) :
  is_whitespace c = false -> exists t, String_trim (s ++ [c]) = t ++ [c].
Proof.
  intros Hc. unfold String_trim.
  destruct (String_trimStart_snoc s c Hc) as [t ->].
  rewrite reverse_app, reverse_singleton. simpl. rewrite Hc.
  rewrite reverse_cons, reverse_involutive. by exists t.
Qed.

Lemma String_endsWith_snoc (t : jstring) (c : N) : String_endsWith (t ++ [c]) [c] = true.
Proof.
  unfold String_endsWith. rewrite reverse_app, reverse_singleton. simpl.
  by rewrite N.eqb_refl.
Qed.

Section Formatting.
Context {platform : Runtime}.

(** A second pass of the javascript formatter changes nothing. *)
Lemma formatJavaScript_idempotent (source : jstring) :
  changes (formatJavaScript (code (formatJavaScript source))) = [].
Proof.
  unfold formatJavaScript at 2.
  destruct (negb _ && negb _) eqn:Hfirst; simpl.
  - unfold formatJavaScript.
    destruct (String_trim_snoc source 59%N eq_refl) as [t Ht].
    change (js ";") with [59%N]. rewrite Ht, String_endsWith_snoc. reflexivity.
  - unfold formatJavaScript. by rewrite Hfirst.
Qed.

(** The javascript formatter reports a change exactly when it made one. *)
Lemma formatJavaScript_changes (source : jstring) :
  changes (formatJavaScript source) = [] <-> code (formatJavaScript source) = source.
Proof.
  unfold formatJavaScript. destruct (negb _ && negb _); simpl; split; try done.
  intros H. apply (f_equal length) in H. rewrite length_app in H. simpl in H. lia.
Qed.

End Formatting.

(** C6 at its failing input: Format of ["<a>"] as html. The first pass
    returns the text as it is and logs "Added line breaks between HTML
    tags"; the second pass, on the result of the first, again changes
    nothing and logs the same change, instead of returning an empty
    [changes]. [formatHTML] (like [formatCSS]) declares [const changes = []],
    never uses it, and returns a literal with one description in its
    place. *)
Lemma formatCode_html_second_pass_logs :
  exists r1 r2,
    formatCode (platform := reference) (js "<a>") (js "html") = Returned r1
    /\ formatCode (platform := reference) (code r1) (js "html") = Returned r2
    /\ code r1 = js "<a>"
    /\ code r2 = js "<a>"
    /\ changes r2 = [js "Added line breaks between HTML tags"]
    /\ changes r2 ≠ [].
Proof. do 2 eexists. split; [reflexivity |]. split; [reflexivity |]. repeat split. discriminate. Qed.

(** The css formatter is not idempotent on the text: every pass puts one
    more space before an opening brace. *)
Lemma formatCSS_adds_a_space_each_pass :
  code (formatCSS (js "a{b;}")) = js "a {" ++ [10%N] ++ js "  b;" ++ [10%N] ++ js "}"
  /\ code (formatCSS (code (formatCSS (js "a{b;}"))))
     = js "a  {" ++ [10%N] ++ js "  b;" ++ [10%N] ++ js "}".
Proof. split; reflexivity. Qed.

(** The json formatter keeps the keys in the order of the text and logs its
    one change: the text [{"b":1,"a":2}], written with the code unit 34 for
    the double quote. *)
Lemma formatCode_json_keeps_key_order :
  let q := [34%N] in
  formatCode (platform := reference)
    (js "{" ++ q ++ js "b" ++ q ++ js ":1," ++ q ++ js "a" ++ q ++ js ":2}") (js "json")
  = Returned
      {| code := js "{" ++ [10%N] ++ js "  " ++ q ++ js "b" ++ q ++ js ": 1," ++ [10%N]
                 ++ js "  " ++ q ++ js "a" ++ q ++ js ": 2" ++ [10%N] ++ js "}";
         changes := [js "Formatted JSON with proper indentation"] |}.
Proof. vm_compute. reflexivity. Qed.

(** ** The python stub *)

Section Python.
Context {platform : Runtime}.
Implicit Types (this : CodeRunner) (code language input : jstring).

(** C8 (amended): for every code string no longer than [maxCodeLength] and
    every input, Execute with language python resolves with success = true
    and error = null, and its output is the fixed "not yet implemented"
    notice, then "Code received:", the submitted code and "Input received: "
    with the input, one per line. The service is left as it was. *)
Theorem executeCode_python_echo this startTime endTime code input :
  String_length code <= maxCodeLength this ->
  exists r,
    executeCode this startTime endTime code (js "python") input = (Returned r, this)
    /\ get r "success" = VBool true
    /\ get r "error" = VNull
    /\ get r "output" =
         VStr (js "Python execution is not yet implemented in this demo version."
               ++ [10%N] ++ js "Code received:"
               ++ [10%N] ++ code
               ++ [10%N] ++ js "Input received: " ++ input).
Proof.
  intros Hlen. unfold executeCode.
  rewrite (length_guard_passes _ _ Hlen).
  eexists. split; [reflexivity | repeat split].
Qed.

End Python.

(** C8, at an instance: a short program on the default runner. *)
Lemma executeCode_python_echo_witness :
  String_length (js "print(1)") <= maxCodeLength default_runner
  /\ exists r,
       executeCode default_runner 100 105 (js "print(1)") (js "python") (js "42")
         = (Returned r, default_runner)
       /\ get r "success" = VBool true
       /\ get r "error" = VNull
       /\ get r "output" =
            VStr (js "Python execution is not yet implemented in this demo version."
                  ++ [10%N] ++ js "Code received:"
                  ++ [10%N] ++ js "print(1)"
                  ++ [10%N] ++ js "Input received: " ++ js "42").
Proof.
  assert (H : String_length (js "print(1)") <= maxCodeLength default_runner)
    by (vm_compute; discriminate).
  split; [exact H |].
  exact (executeCode_python_echo (platform := reference) default_runner 100 105
           (js "print(1)") (js "42") H).
Defined.

(** C8 as stated fails on code longer than the limit: the length check
    precedes the dispatch, and the call reports failure. *)
Lemma executeCode_python_too_long :
  let code := replicate (Z.to_nat 10001) 97%N in
  exists r,
    fst (executeCode default_runner 100 105 code (js "python") []) = Returned r
    /\ get r "success" = VBool false
    /\ get r "error" = VStr (js "Code too long. Maximum allowed: 10000 characters")
    /\ get r "output" = VStr [].
Proof. eexists. split; [vm_compute; reflexivity | repeat split]. Qed.

(** ** The timing field *)

Lemma Number_toString_decimal (n : Z) : as_decimal (Number_toString n) = Some n.
Proof.
  unfold as_decimal, Number_toString, js.
  rewrite <- list_fmap_compose.
  rewrite (list_fmap_ext _ id) by (intros; apply ascii_N_embedding).
  rewrite list_fmap_id, string_of_list_ascii_of_string, NilEmpty.isi.
  simpl. f_equal. apply DecimalZ.of_to.
Qed.

Section Timing.
Context {platform : Runtime}.
Implicit Types (this : CodeRunner) (code language input : jstring).


End Timing.



(** * Further properties *)

(** ** Regular expressions *)

(** A match consumes a prefix of the subject. *)
Lemma match_star_suffix (c : N -> bool) (k : jstring -> option jstring) :
  (forall t rest, k t = Some rest -> exists m, t = m ++ rest) ->
  forall s rest, match_star c k s = Some rest -> exists m, s = m ++ rest.
Proof.
  intros Hk s. induction s as [| x s IH]; intros rest; simpl; [apply Hk |].
  destruct (c x); [| apply Hk].
  destruct (match_star c k s) as [rest' |] eqn:Hs; [| apply Hk].
  intros [= <-]. destruct (IH _ eq_refl) as [m ->]. by exists (x :: m).
Qed.

Lemma match_here_suffix (r : regex) :
  forall s rest, match_here r s = Some rest -> exists m, s = m ++ rest.
Proof.
  induction r as [| [c q] r IH]; intros s rest; simpl.
  - intros [= <-]. by exists [].
  - destruct q.
    + destruct s as [| x s]; [done |]. destruct (c x); [| done].
      intros H. destruct (IH _ _ H) as [m ->]. by exists (x :: m).
    + by apply match_star_suffix.
    + destruct s as [| x s]; [done |]. destruct (c x); [| done].
      intros H. destruct (match_star_suffix c _ IH _ _ H) as [m ->]. by exists (x :: m).
Qed.

(** A replacement by the empty string only deletes. *)
Lemma replace_from_sublist (r : regex) (s : jstring) :
  forall skip, replace_from r [] skip s `sublist_of` s.
Proof.
  induction s as [| x s IH]; intros skip; simpl; [constructor |].
  destruct skip as [| n]; [| by apply sublist_cons].
  destruct (match_here r (x :: s)); [by apply sublist_cons | by apply sublist_skip].
Qed.

(** Where the pattern matches nowhere, [replace] gives the subject back. *)
Lemma replace_from_no_match (r : regex) (by_ s : jstring) :
  (forall m t, s = m ++ t -> match_here r t = None) ->
  replace_from r by_ O s = s.
Proof.
  induction s as [| x s IH]; intros Hno; simpl; [done |].
  rewrite (Hno [] (x :: s) eq_refl). f_equal. apply IH.
  intros m t ->. by apply (Hno (x :: m)).
Qed.

Lemma count_from_no_match (r : regex) (s : jstring) :
  (forall m t, s = m ++ t -> match_here r t = None) ->
  count_from r O s = O.
Proof.
  induction s as [| x s IH]; intros Hno; simpl; [done |].
  rewrite (Hno [] (x :: s) eq_refl). apply IH.
  intros m t ->. by apply (Hno (x :: m)).
Qed.

(** A pattern that begins with a word matches only where the word stands. *)
Lemma match_word_starts_with (w : jstring) (r : regex) (t : jstring) :
  starts_with w t = false ->
  match_here (((fun x => (N.eqb x, Once)) <$> w) ++ r) t = None.
Proof.
  revert t. induction w as [| a w IH]; intros t; simpl; [done |].
  destruct t as [| b t]; [done |].
  destruct (a =? b)%N; simpl; [apply IH | done].
Qed.

Lemma String_includes_suffix (s p : jstring) :
  String_includes s p = false ->
  forall m t, s = m ++ t -> starts_with p t = false.
Proof.
  intros H m. revert s H. induction m as [| x m IH]; intros s H t ->; simpl in *.
  - destruct t; simpl in H; by apply orb_false_elim in H as [? ?].
  - apply orb_false_elim in H as [_ H]. by apply (IH _ H).
Qed.

(** A pattern that begins with one code unit does not match where another
    one stands. *)
Lemma match_chr_first (a : string) (q : quantifier) (r : regex) (t : jstring) :
  q ≠ ZeroOrMore ->
  starts_with (js a) t = false ->
  (exists x, js a = [x]) ->
  match_here ((chr a, q) :: r) t = None.
Proof.
  intros Hq Ht [x Hx]. unfold chr. rewrite Hx in *. simpl in Ht.
  destruct t as [| b t]; [by destruct q |].
  rewrite andb_true_r in Ht. rewrite N.eqb_sym in Ht.
  simpl. rewrite Ht. by destruct q.
Qed.

(** ** Type stripping *)

(** Type stripping only deletes: what it returns is the code with some of
    its code units left out, in the same order. *)
Theorem strip_types_sublist (code : jstring) :
  strip_types code `sublist_of` code
  /\ (length (strip_types code) <= length code)%nat.
Proof.
  assert (H : strip_types code `sublist_of` code).
  { unfold strip_types, String_replace.
    repeat (etrans; [apply replace_from_sublist |]). done. }
  split; [exact H | by apply sublist_length].
Qed.

(** Code with no colon, no [<], and neither of the words "interface" and
    "type" comes back from type stripping as it is. *)
Theorem strip_types_plain (code : jstring) :
  String_includes code (js ":") = false ->
  String_includes code (js "<") = false ->
  String_includes code (js "interface") = false ->
  String_includes code (js "type") = false ->
  strip_types code = code.
Proof.
  intros Hcolon Hangle Hinterface Htype. unfold strip_types, String_replace.
  rewrite (replace_from_no_match type_annotation).
  2: { intros m t Hs. apply match_chr_first; [done | | by eexists].
       by apply (String_includes_suffix _ _ Hcolon m). }
  rewrite (replace_from_no_match interface_declaration).
  2: { intros m t Hs. apply match_word_starts_with.
       by apply (String_includes_suffix _ _ Hinterface m). }
  rewrite (replace_from_no_match type_alias).
  2: { intros m t Hs. apply match_word_starts_with.
       by apply (String_includes_suffix _ _ Htype m). }
  apply replace_from_no_match.
  intros m t Hs. apply match_chr_first; [done | | by eexists].
  by apply (String_includes_suffix _ _ Hangle m).
Qed.

(** At an instance: a script without annotations. *)
Lemma strip_types_plain_witness :
  String_includes (js "x = 1; console.log(x)") (js ":") = false
  /\ strip_types (js "x = 1; console.log(x)") = js "x = 1; console.log(x)".
Proof.
  split; [reflexivity |].
  exact (strip_types_plain (js "x = 1; console.log(x)") eq_refl eq_refl eq_refl eq_refl).
Defined.

(** ** The guards of Execute *)

Lemma length_guard_fires (n m : Z) : m < n -> (n >? m) = true.
Proof. intros H. rewrite Z.gtb_ltb. by apply Z.ltb_lt. Qed.

Lemma not_listed (language : jstring) :
  language ∉ Language.id <$> supportedLanguages ->
  eqb_jstring language (js "javascript") = false
  /\ eqb_jstring language (js "typescript") = false
  /\ eqb_jstring language (js "python") = false
  /\ eqb_jstring language (js "html") = false
  /\ eqb_jstring language (js "css") = false
  /\ eqb_jstring language (js "json") = false
  /\ eqb_jstring language (js "markdown") = false.
Proof.
  intros Hnot. repeat split; apply eqb_jstring_neq; intros ->; apply Hnot;
    simpl; set_solver.
Qed.

Section Guards.
Context {platform : Runtime}.
Variable Function_new : jstring -> option jstring.
Implicit Types (this : CodeRunner) (code language input : jstring).

(** Code longer than [maxCodeLength] is refused whatever the language, also
    an unknown one: the call fails with the "Code too long" message naming
    the limit, runs nothing and leaves the service as it was. *)
Theorem executeCode_too_long this startTime endTime code language input :
  maxCodeLength this < String_length code ->
  exists r,
    executeCode this startTime endTime code language input = (Returned r, this)
    /\ get r "success" = VBool false
    /\ get r "output" = VStr []
    /\ get r "error" =
         VStr (js "Code too long. Maximum allowed: "
               ++ Number_toString (maxCodeLength this) ++ js " characters").
Proof.
  intros Hlen. unfold executeCode. rewrite (length_guard_fires _ _ Hlen).
  eexists. split; [reflexivity | repeat split].
Qed.

(** A language that [GET /languages] does not list: Execute fails with
    "Unsupported language: " and the name, Validate answers invalid with the
    same message as its only error and without any [warnings], and Format
    succeeds, giving the code back with no change logged. None of them
    touches the service. *)
Theorem unknown_language this startTime endTime code language input :
  String_length code <= maxCodeLength this ->
  language ∉ Language.id <$> supportedLanguages ->
  (exists r,
     executeCode this startTime endTime code language input = (Returned r, this)
     /\ get r "success" = VBool false
     /\ get r "error" = VStr (js "Unsupported language: " ++ language))
  /\ validateCode Function_new code language =
       {| isValid := false; errors := [js "Unsupported language: " ++ language];
          warnings := None |}
  /\ formatCode code language = Returned {| code := code; changes := [] |}.
Proof.
  intros Hlen Hnot.
  destruct (not_listed _ Hnot) as (Hjs & Hts & Hpy & Hhtml & Hcss & Hjson & Hmd).
  split; [| split].
  - unfold executeCode. rewrite (length_guard_passes _ _ Hlen).
    rewrite Hjs, Hts, Hpy, Hhtml, Hcss, Hjson, Hmd.
    eexists. split; [reflexivity | repeat split].
  - unfold validateCode. by rewrite Hjs, Hts, Hpy, Hhtml, Hcss, Hjson, Hmd.
  - unfold formatCode. by rewrite Hjs, Hjson, Hhtml, Hcss.
Qed.

(** Validate leaves [warnings] out exactly for the languages that
    [GET /languages] does not list. *)
Theorem validateCode_warnings code language :
  warnings (validateCode Function_new code language) = None
  <-> language ∉ Language.id <$> supportedLanguages.
Proof.
  split.
  - intros Hw Hin. simpl in Hin.
    repeat (apply elem_of_cons in Hin as [-> | Hin]);
      [.. | by apply elem_of_nil in Hin];
      unfold validateCode in Hw; simpl in Hw;
      unfold validateJavaScript, validateTypeScript, validateJSON in Hw;
      repeat match type of Hw with
             | context [match ?x with _ => _ end] => destruct x
             end; discriminate.
  - intros Hnot.
    destruct (not_listed _ Hnot) as (Hjs & Hts & Hpy & Hhtml & Hcss & Hjson & Hmd).
    unfold validateCode. by rewrite Hjs, Hts, Hpy, Hhtml, Hcss, Hjson, Hmd.
Qed.

(** The three previews: for code within the limit, Execute with language
    html, css or markdown succeeds, and its output is a heading, the code as
    it was submitted between the lines of a fence, an empty line, and a
    note. The service is left as it was. *)
Theorem executeCode_preview this startTime endTime code language input :
  String_length code <= maxCodeLength this ->
  language ∈ [js "html"; js "css"; js "markdown"] ->
  exists r heading note,
    executeCode this startTime endTime code language input = (Returned r, this)
    /\ get r "success" = VBool true
    /\ get r "error" = VNull
    /\ get r "output" =
         VStr (heading ++ [10%N] ++ js "```" ++ language ++ [10%N] ++ code ++ [10%N]
               ++ js "```" ++ [10%N] ++ [10%N] ++ note)
    /\ 10%N ∉ heading.
Proof.
  intros Hlen Hin. unfold executeCode. rewrite (length_guard_passes _ _ Hlen).
  apply elem_of_cons in Hin as [-> | Hin];
    [| apply elem_of_cons in Hin as [-> | Hin];
       [| apply list_elem_of_singleton in Hin as ->]];
    simpl; eexists.
  - exists (js "HTML Preview:"),
      (js "Note: This is a preview. To see the rendered result, copy the HTML to a file and open it in a browser.").
    repeat (split; [reflexivity |]). by apply (bool_decide_unpack (_ ∉ _)).
  - exists (js "CSS Code:"),
      (js "Note: This is a preview. To see the rendered result, copy the CSS to a file and link it to an HTML document.").
    repeat (split; [reflexivity |]). by apply (bool_decide_unpack (_ ∉ _)).
  - exists (js "Markdown Preview:"),
      (js "Note: This is a preview. To see the rendered result, copy the markdown to a file and open it in a markdown viewer.").
    repeat (split; [reflexivity |]). by apply (bool_decide_unpack (_ ∉ _)).
Qed.

End Guards.

(** ** The output of a script *)

Section Transcript.
Context {platform : Runtime}.
Implicit Types (this : CodeRunner) (code language input : jstring).

(** Serving a run that logs [lines] through the console of its call appends
    them, in order, to the array of the call and changes no other array. *)
Lemma serve_logs {S : Type} (output : nat) (g : Guest S) n lines result sandbox :
  logs output g n lines result sandbox ->
  forall (arrays : Arrays) current,
    arrays !! output = Some current ->
    Z.of_nat (length current) = n ->
    serve g arrays = (<[output := current ++ (Some <$> lines)]> arrays, result, sandbox).
Proof.
  induction 1 as [result sandbox n
                 | level args resume n line lines result sandbox _ Hline _ IH];
    intros arrays current Hcurrent Hn; simpl.
  - by rewrite app_nil_r, list_insert_id.
  - rewrite Hline. unfold Array_push. rewrite Hcurrent. rewrite Hn.
    rewrite (IH _ (current ++ [Some line])).
    + by rewrite list_insert_insert_eq, <- app_assoc.
    + apply list_lookup_insert_eq. by apply lookup_lt_Some in Hcurrent.
    + rewrite length_app. simpl. lia.
Qed.

(** The formatter is total on plain values. *)
Lemma formatOutput_plain (value : Value) :
  plain value = true -> exists text, formatOutput value = Returned text.
Proof. destruct value; try discriminate; intros _; by eexists. Qed.


End Transcript.

(** ** Validation *)

Section Validators.
Context {platform : Runtime}.
Variable Function_new : jstring -> option jstring.
Implicit Types (this : CodeRunner) (code language input : jstring).

(** Whatever the language and the code, Validate answers [isValid] exactly
    when it reports no error: warnings never invalidate, and an invalid
    answer always says why. *)
Theorem validateCode_isValid code language :
  isValid (validateCode Function_new code language) = true
  <-> errors (validateCode Function_new code language) = [].
Proof.
  unfold validateCode, validateJavaScript, validateTypeScript, validateJSON.
  repeat match goal with
         | |- context [if eqb_jstring ?a ?b then _ else _] => destruct (eqb_jstring a b)
         end; simpl; try done.
  - by destruct (Function_new code).
  - destruct (Function_new (strip_types code)); simpl.
    + split; [done |]. intros H. by apply app_nil in H as [_ ?].
    + by break_match.
  - by destruct (JSON_parse code).
Qed.

(** On json the three operations agree: Validate answers valid exactly when
    Format succeeds and, for code within the limit, exactly when Execute
    succeeds; and when Validate reports the parser's message, Execute fails
    with it behind "Invalid JSON: " and Format raises it behind
    "Code formatting failed: Invalid JSON: ". *)
Theorem json_operations_agree this startTime endTime code input :
  let validation := validateCode Function_new code (js "json") in
  (isValid validation = true <-> exists r, formatCode code (js "json") = Returned r)
  /\ (String_length code <= maxCodeLength this ->
      (isValid validation = true
       <-> exists r,
             fst (executeCode this startTime endTime code (js "json") input) = Returned r
             /\ get r "success" = VBool true))
  /\ (forall message,
        errors validation = [message] ->
        formatCode code (js "json")
          = Thrown (Error (js "Code formatting failed: Invalid JSON: " ++ message))
        /\ (String_length code <= maxCodeLength this ->
            exists r,
              fst (executeCode this startTime endTime code (js "json") input) = Returned r
              /\ get r "error" = VStr (js "Invalid JSON: " ++ message))).
Proof.
  unfold validateCode, formatCode, executeCode. simpl.
  unfold validateJSON, formatJSON, executeJSON.
  destruct (JSON_parse code) as [parsed | m]; simpl.
  - split; [| split].
    + split; [by eexists | done].
    + intros Hlen. rewrite (length_guard_passes _ _ Hlen). simpl.
      split; [by eexists | done].
    + intros message [=].
  - split; [| split].
    + split; [done | by intros [r ?]].
    + intros Hlen. rewrite (length_guard_passes _ _ Hlen). simpl.
      split; [done |]. intros (r & [= <-] & H). discriminate.
    + intros message [= <-]. split; [reflexivity |].
      intros Hlen. rewrite (length_guard_passes _ _ Hlen). simpl.
      eexists. by split.
Qed.

(** On code with no colon, no [<], and neither of the words "interface" and
    "type", the typescript validator is the javascript validator: the same
    verdict, and the same message behind "JavaScript execution failed: ". *)
Theorem validateTypeScript_plain code :
  String_includes code (js ":") = false ->
  String_includes code (js "<") = false ->
  String_includes code (js "interface") = false ->
  String_includes code (js "type") = false ->
  isValid (validateCode Function_new code (js "typescript"))
    = isValid (validateCode Function_new code (js "javascript"))
  /\ errors (validateCode Function_new code (js "typescript"))
     = (fun message => js "JavaScript execution failed: " ++ message)
         <$> errors (validateCode Function_new code (js "javascript")).
Proof.
  intros Hcolon Hangle Hinterface Htype.
  unfold validateCode. simpl. unfold validateTypeScript, validateJavaScript.
  rewrite (strip_types_plain code Hcolon Hangle Hinterface Htype).
  rewrite Hinterface, Htype. simpl.
  by destruct (Function_new code).
Qed.

End Validators.

(** ** Formatting, further *)

(** What the javascript formatter returns ends, once trimmed, in a semicolon
    or a closing brace; it is the code as it was or with one semicolon
    appended, and formatting it again returns it unchanged with no change
    logged. *)
Theorem formatJavaScript_result (source : jstring) :
  let r := formatJavaScript source in
  (code r = source \/ code r = source ++ js ";")
  /\ String_endsWith (String_trim (code r)) (js ";")
     || String_endsWith (String_trim (code r)) (js "}") = true
  /\ formatJavaScript (code r) = {| code := code r; changes := [] |}.
Proof.
  cbv zeta. split; [| split].
  - unfold formatJavaScript. destruct (negb _ && negb _); simpl; auto.
  - unfold formatJavaScript. destruct (negb _ && negb _) eqn:Hfirst; simpl.
    + destruct (String_trim_snoc source 59%N eq_refl) as [t Ht].
      change (js ";") with [59%N]. by rewrite Ht, String_endsWith_snoc.
    + apply andb_false_iff in Hfirst as [H | H]; apply negb_false_iff in H;
        rewrite H; by rewrite ?orb_true_r.
  - pose proof (formatJavaScript_idempotent source) as Hchanges.
    pose proof (formatJavaScript_changes (code (formatJavaScript source))) as [Hcode _].
    specialize (Hcode Hchanges).
    destruct (formatJavaScript (code (formatJavaScript source))) as [c l].
    simpl in *. by subst.
Qed.

(** ** The execute route *)

Section Routes.
Context {platform : Runtime}.


End Routes.

(** ** The html formatter *)

Lemma replace_from_skip (r : regex) (by_ m rest : jstring) :
  replace_from r by_ (length m) (m ++ rest) = replace_from r by_ O rest.
Proof.
  induction m as [| x m IH]; simpl; [| exact IH].
  by destruct rest.
Qed.

(** The step of [replace] at a match that is not empty. *)
Lemma replace_from_match (r : regex) (by_ : jstring) (x : N) (t rest : jstring) :
  match_here r (x :: t) = Some rest ->
  (length rest <= length t)%nat ->
  replace_from r by_ O (x :: t) = by_ ++ replace_from r by_ O rest.
Proof.
  intros Hmatch Hlen. simpl replace_from. rewrite Hmatch.
  destruct (match_here_suffix _ _ _ Hmatch) as [m Hm].
  destruct m as [| y m]; simpl in Hm.
  - subst rest. simpl in Hlen. lia.
  - injection Hm as <- ->. f_equal.
    match goal with
    | |- replace_from _ _ ?k _ = _ =>
        replace k with (length m) by (simpl; rewrite length_app; lia)
    end.
    apply replace_from_skip.
Qed.

(** Leading white space, split off. *)
Lemma String_trimStart_split (t : jstring) :
  exists w, t = w ++ String_trimStart t /\ forallb is_whitespace w = true.
Proof.
  induction t as [| x t (w & Ht & Hw)]; simpl; [by exists [] |].
  destruct (is_whitespace x) eqn:Hx; [| by exists []].
  exists (x :: w). simpl. rewrite Hx, Hw. split; [by f_equal | done].
Qed.

Lemma match_between_tags (s : jstring) : match_here between_tags s = tags_meet s.
Proof.
  destruct s as [| x t]; [done |]. unfold between_tags, tags_meet.
  simpl match_here. change (chr ">" x) with (x =? 62)%N.
  destruct (N.eqb_spec x 62) as [-> | Hx].
  2: { destruct x as [| p]; [done |].
       repeat (destruct p as [p | p |]; try done). }
  induction t as [| y t IH]; simpl; [done |].
  destruct (is_whitespace y) eqn:Hy.
  - rewrite IH. destruct (String_trimStart t) as [| c rest] eqn:Ht.
    + change (chr "<" y) with (y =? 60)%N.
      destruct (N.eqb_spec y 60) as [-> | _]; [discriminate | done].
    + destruct (N.eqb_spec c 60) as [-> | Hc].
      * done.
      * change (chr "<" c) with (c =? 60)%N.
        destruct (N.eqb_spec c 60); [done |].
        change (chr "<" y) with (y =? 60)%N.
        destruct (N.eqb_spec y 60) as [-> | _]; [discriminate |].
        destruct c as [| p]; [done |].
        repeat (destruct p as [p | p |]; try done).
  - change (chr "<" y) with (y =? 60)%N.
    destruct (N.eqb_spec y 60) as [-> | Hy60]; [done |].
    destruct y as [| p]; [done |].
    repeat (destruct p as [p | p |]; try done).
Qed.

Lemma tags_meet_shorter (s rest : jstring) :
  tags_meet s = Some rest -> (S (length rest) < length s)%nat.
Proof.
  destruct s as [| x t]; [done |]. unfold tags_meet.
  destruct (N.eqb_spec x 62) as [-> | Hx].
  2: { destruct x as [| p]; [done |]. repeat (destruct p as [p | p |]; try done). }
  destruct (String_trimStart_split t) as (w & Ht & _).
  destruct (String_trimStart t) as [| c rest'] eqn:Htrim; [done |].
  intros H.
  assert (c = 60%N /\ rest' = rest) as [-> ->].
  { destruct (N.eqb_spec c 60) as [-> | Hc]; [by injection H |].
    destruct c as [| p]; [done |]. repeat (destruct p as [p | p |]; try done). }
  rewrite Ht. simpl. rewrite length_app. simpl. lia.
Qed.

Lemma replace_from_miss (r : regex) (by_ : jstring) (x : N) (t : jstring) :
  match_here r (x :: t) = None ->
  replace_from r by_ O (x :: t) = x :: replace_from r by_ O t.
Proof. intros H. simpl. by rewrite H. Qed.

Lemma break_tags_step (s : jstring) :
  break_tags s =
    match s with
    | [] => []
    | x :: t =>
        match tags_meet s with
        | Some rest => 62%N :: 10%N :: 60%N :: break_tags rest
        | None => x :: break_tags t
        end
    end.
Proof.
  destruct s as [| x t]; [done |]. unfold break_tags, String_replace.
  destruct (tags_meet (x :: t)) as [rest |] eqn:Hmeet.
  - rewrite (replace_from_match _ _ _ _ rest); [done | by rewrite match_between_tags |].
    apply tags_meet_shorter in Hmeet. simpl in Hmeet. lia.
  - apply replace_from_miss. by rewrite match_between_tags.
Qed.

(** The formatter keeps the first code unit. *)
Lemma break_tags_head (s : jstring) : head (break_tags s) = head s.
Proof.
  rewrite break_tags_step. destruct s as [| x t]; [done |].
  destruct (tags_meet (x :: t)) eqn:Hmeet; [| done].
  unfold tags_meet in Hmeet.
  destruct (N.eqb_spec x 62) as [-> | Hx]; [done |].
  destruct x as [| p]; [done |]. repeat (destruct p as [p | p |]; try done).
Qed.

(** It passes over white space. *)
Lemma break_tags_whitespace (w s : jstring) :
  forallb is_whitespace w = true -> break_tags (w ++ s) = w ++ break_tags s.
Proof.
  induction w as [| x w IH]; intros Hw; [done |].
  simpl in Hw. apply andb_true_iff in Hw as [Hx Hw].
  rewrite <- app_comm_cons, break_tags_step.
  assert (tags_meet (x :: w ++ s) = None) as ->.
  { unfold tags_meet. destruct (N.eqb_spec x 62) as [-> | Hx62]; [discriminate |].
    destruct x as [| p]; [done |]. repeat (destruct p as [p | p |]; try done). }
  by rewrite (IH Hw).
Qed.

Lemma String_trimStart_whitespace (w s : jstring) :
  forallb is_whitespace w = true -> String_trimStart (w ++ s) = String_trimStart s.
Proof.
  induction w as [| x w IH]; intros Hw; [done |].
  simpl in *. apply andb_true_iff in Hw as [-> Hw]. by apply IH.
Qed.

(** What follows the white space after the formatter has run begins as it
    did before. *)
Lemma String_trimStart_break_tags (t : jstring) :
  head (String_trimStart (break_tags t)) = head (String_trimStart t).
Proof.
  destruct (String_trimStart_split t) as (w & Ht & Hw).
  rewrite Ht at 1. rewrite (break_tags_whitespace _ _ Hw), (String_trimStart_whitespace _ _ Hw).
  destruct (String_trimStart t) as [| c u] eqn:Htrim; [done |].
  assert (Hc : is_whitespace c = false).
  { destruct t as [| y t']; [done |]. clear Ht Hw w.
    revert y Htrim. induction t' as [| z t' IH]; intros y Htrim; simpl in Htrim.
    - destruct (is_whitespace y) eqn:Hy; [done | by injection Htrim as -> _].
    - destruct (is_whitespace y) eqn:Hy; [by apply (IH z) | by injection Htrim as -> _]. }
  pose proof (break_tags_head (c :: u)) as Hhead.
  destruct (break_tags (c :: u)) as [| c' u']; [done |].
  simpl in Hhead. injection Hhead as ->. simpl. by rewrite Hc.
Qed.

(** Formatting html twice gives what formatting it once gives. *)
Lemma break_tags_idempotent (n : nat) :
  forall s, (length s <= n)%nat -> break_tags (break_tags s) = break_tags s.
Proof.
  induction n as [| n IH]; intros s Hlen.
  - destruct s; [done | simpl in Hlen; lia].
  - rewrite (break_tags_step s). destruct s as [| x t]; [done |].
    destruct (tags_meet (x :: t)) as [rest |] eqn:Hmeet.
    + rewrite break_tags_step.
      assert (tags_meet (62%N :: 10%N :: 60%N :: break_tags rest) = Some (break_tags rest))
        as -> by done.
      rewrite IH; [done |].
      apply tags_meet_shorter in Hmeet. simpl in *. lia.
    + rewrite break_tags_step.
      assert (tags_meet (x :: break_tags t) = None) as ->.
      { unfold tags_meet in *.
        destruct (N.eqb_spec x 62) as [-> | Hx].
        2: { destruct x as [| p]; [done |]. repeat (destruct p as [p | p |]; try done). }
        pose proof (String_trimStart_break_tags t) as Hhead.
        destruct (String_trimStart t) as [| c u];
          destruct (String_trimStart (break_tags t)) as [| c' u']; try done.
        simpl in Hhead. injection Hhead as ->.
        destruct (N.eqb_spec c 60) as [-> | Hc]; [done |].
        destruct c as [| p]; [done |]. repeat (destruct p as [p | p |]; try done). }
      rewrite IH; [done | simpl in Hlen; lia].
Qed.

(** The html formatter is idempotent on the text: a second pass returns the
    code of the first pass unchanged (and, as every pass does, logs its one
    change). *)
Theorem formatHTML_idempotent (source : jstring) :
  code (formatHTML (code (formatHTML source))) = code (formatHTML source).
Proof.
  exact (break_tags_idempotent (length source) source (Nat.le_refl _)).
Qed.

(** ** The css formatter *)

Lemma replace_from_hit (r : regex) (by_ : jstring) (x : N) (t rest : jstring) :
  match_here r (x :: t) = Some rest ->
  exists skip, replace_from r by_ O (x :: t) = by_ ++ replace_from r by_ skip t.
Proof. intros H. eexists. simpl. by rewrite H. Qed.

Lemma match_open_brace (x : N) (t : jstring) :
  match_here open_brace (x :: t)
  = if (x =? 123)%N then Some (String_trimStart t) else None.
Proof.
  unfold open_brace. simpl match_here. change (chr "{" x) with (x =? 123)%N.
  destruct (x =? 123)%N; [| done].
  induction t as [| y t IH]; [done |].
  simpl. destruct (is_whitespace y); [by rewrite IH | done].
Qed.

Lemma spaces_before_brace_open (s : jstring) :
  forall n,
    spaces_before_brace n (String_replace s open_brace (js " {" ++ [10%N] ++ js "  "))
    = S <$> spaces_before_brace n s.
Proof.
  unfold String_replace.
  induction s as [| x t IH]; intros n; [done |].
  pose proof (match_open_brace x t) as Hmatch.
  destruct (N.eqb_spec x 123) as [-> | Hx].
  - destruct (replace_from_hit _ (js " {" ++ [10%N] ++ js "  ") _ _ _ Hmatch) as [skip ->].
    done.
  - rewrite (replace_from_miss _ _ _ _ Hmatch). simpl.
    destruct (N.eqb_spec x 123) as [| _]; [done |].
    destruct (x =? 32)%N; apply IH.
Qed.

Lemma match_close_brace (s : jstring) :
  match_here close_brace s =
    match s with
    | x :: t =>
        if (x =? 59)%N then
          match String_trimStart t with
          | c :: rest => if (c =? 125)%N then Some rest else None
          | [] => None
          end
        else None
    | [] => None
    end.
Proof.
  destruct s as [| x t]; [done |]. unfold close_brace.
  simpl match_here. change (chr ";" x) with (x =? 59)%N.
  destruct (x =? 59)%N; [| done].
  induction t as [| y t IH]; [done |].
  simpl. change (chr "}" y) with (y =? 125)%N.
  destruct (is_whitespace y) eqn:Hy.
  - rewrite IH. destruct (String_trimStart t) as [| c rest].
    + destruct (N.eqb_spec y 125) as [-> | _]; [discriminate | done].
    + destruct (c =? 125)%N; [done |].
      destruct (N.eqb_spec y 125) as [-> | _]; [discriminate | done].
  - done.
Qed.

Lemma spaces_before_brace_whitespace (w rest : jstring) :
  forallb is_whitespace w = true ->
  forall n, spaces_before_brace n (w ++ 125%N :: rest) = spaces_before_brace O rest.
Proof.
  induction w as [| x w IH]; intros Hw n; [done |].
  simpl in Hw. apply andb_true_iff in Hw as [Hx Hw]. simpl.
  destruct (N.eqb_spec x 123) as [-> | _]; [discriminate |].
  destruct (x =? 32)%N; by apply IH.
Qed.

Lemma spaces_before_brace_close (k : nat) :
  forall s n, (length s <= k)%nat ->
    spaces_before_brace n (String_replace s close_brace (js ";" ++ [10%N] ++ js "}"))
    = spaces_before_brace n s.
Proof.
  unfold String_replace.
  induction k as [| k IH]; intros s n Hlen.
  - destruct s; [done | simpl in Hlen; lia].
  - destruct s as [| x t]; [done |].
    destruct (match_here close_brace (x :: t)) as [rest |] eqn:Hmatch.
    + pose proof Hmatch as Hmeet. rewrite match_close_brace in Hmeet.
      destruct (N.eqb_spec x 59) as [-> | _]; [| done].
      destruct (String_trimStart_split t) as (w & Ht & Hw).
      destruct (String_trimStart t) as [| c rest']; [done |].
      destruct (N.eqb_spec c 125) as [-> | _]; [| done].
      injection Hmeet as ->.
      rewrite (replace_from_match _ _ _ _ rest Hmatch).
      2: { rewrite Ht, length_app. simpl. lia. }
      change (spaces_before_brace O (replace_from close_brace (js ";" ++ [10%N] ++ js "}") 0 rest)
              = spaces_before_brace n (59%N :: t)).
      rewrite IH.
      2: { simpl in Hlen. rewrite Ht, length_app in Hlen. simpl in Hlen. lia. }
      rewrite Ht. simpl. by rewrite spaces_before_brace_whitespace.
    + rewrite (replace_from_miss _ _ _ _ Hmatch). simpl in *.
      destruct (x =? 123)%N; [done |].
      destruct (x =? 32)%N; apply IH; lia.
Qed.

Lemma spaces_before_brace_formatCSS (s : jstring) (n : nat) :
  spaces_before_brace n (code (formatCSS s)) = S <$> spaces_before_brace n s.
Proof.
  unfold formatCSS. cbv zeta. simpl code.
  rewrite (spaces_before_brace_close _ _ _ (Nat.le_refl _)).
  apply spaces_before_brace_open.
Qed.

Lemma spaces_before_brace_elem (s : jstring) :
  123%N ∈ s -> forall n, is_Some (spaces_before_brace n s).
Proof.
  induction s as [| x t IH]; intros Hin n; [by apply elem_of_nil in Hin |].
  cbn [spaces_before_brace].
  destruct (x =? 123)%N eqn:Hx; [done |].
  apply elem_of_cons in Hin as [<- | Hin]; [done |].
  destruct (x =? 32)%N; by apply IH.
Qed.

Lemma spaces_before_brace_iter (s : jstring) (k : nat) :
  spaces_before_brace O (Nat.iter k (fun t => code (formatCSS t)) s)
  = Nat.add k <$> spaces_before_brace O s.
Proof.
  induction k as [| k IH].
  - simpl. by destruct (spaces_before_brace O s).
  - rewrite Nat.iter_succ, spaces_before_brace_formatCSS, IH.
    by destruct (spaces_before_brace O s).
Qed.

(** On css that holds an opening brace the formatter never settles: every
    pass puts one more space before the first [{], so the texts that
    repeated formatting gives are all different. *)
Theorem formatCSS_never_settles (s : jstring) (n m : nat) :
  123%N ∈ s -> n <> m ->
  Nat.iter n (fun t => code (formatCSS t)) s <> Nat.iter m (fun t => code (formatCSS t)) s.
Proof.
  intros Hin Hnm Heq.
  apply (f_equal (spaces_before_brace O)) in Heq.
  rewrite !spaces_before_brace_iter in Heq.
  destruct (spaces_before_brace_elem s Hin O) as [k Hk].
  rewrite Hk in Heq. simpl in Heq. injection Heq. lia.
Qed.


(** ** What formatting html leaves as it is *)

Lemma count_from_skip (r : regex) (m rest : jstring) :
  count_from r (length m) (m ++ rest) = count_from r O rest.
Proof.
  induction m as [| x m IH]; simpl; [| exact IH].
  by destruct rest.
Qed.

(** The step of [match] with the [g] flag, for a pattern that begins with
    one code unit. *)
Lemma count_from_step (c : N -> bool) (r : regex) (x : N) (t : jstring) :
  count_from ((c, Once) :: r) O (x :: t) =
    match match_here ((c, Once) :: r) (x :: t) with
    | Some rest => S (count_from ((c, Once) :: r) O rest)
    | None => count_from ((c, Once) :: r) O t
    end.
Proof.
  cbn [count_from].
  destruct (match_here ((c, Once) :: r) (x :: t)) as [rest |] eqn:Hmatch; [| done].
  f_equal. simpl in Hmatch. destruct (c x); [| done].
  destruct (match_here_suffix _ _ _ Hmatch) as [m ->].
  match goal with
  | |- count_from _ ?k _ = _ =>
      replace k with (length m) by (simpl; rewrite length_app; lia)
  end.
  apply count_from_skip.
Qed.

Lemma match_up_to_gt (s : jstring) :
  match_star (not_chr ">") (match_here [(chr ">", Once)]) s = after_gt s.
Proof.
  induction s as [| x t IH]; [done |].
  cbn [match_star after_gt]. rewrite IH.
  change (match_here [(chr ">", Once)] (x :: t)) with (if chr ">" x then Some t else None).
  unfold not_chr. change (chr ">" x) with (x =? 62)%N.
  destruct (x =? 62)%N; simpl; [done |].
  by destruct (after_gt t).
Qed.

Lemma match_tag (c : N -> bool) (x : N) (t : jstring) :
  match_here (tag c) (x :: t)
  = if (x =? 60)%N then
      match t with
      | y :: u => if c y then after_gt u else None
      | [] => None
      end
    else None.
Proof.
  unfold tag. simpl. change (chr "<" x) with (x =? 60)%N.
  destruct (x =? 60)%N; [| done]. destruct t as [| y u]; [done |].
  destruct (c y); [| done]. apply match_up_to_gt.
Qed.

Lemma count_tag_step (c : N -> bool) (x : N) (t : jstring) :
  count_from (tag c) O (x :: t) =
    match (if (x =? 60)%N then
             match t with
             | y :: u => if c y then after_gt u else None
             | [] => None
             end
           else None) with
    | Some rest => S (count_from (tag c) O rest)
    | None => count_from (tag c) O t
    end.
Proof. rewrite <- match_tag. apply count_from_step. Qed.

Lemma whitespace_not (w : jstring) (c : N) :
  forallb is_whitespace w = true -> is_whitespace c = false -> c ∉ w.
Proof.
  intros Hw Hc Hin. rewrite forallb_forall in Hw.
  apply list_elem_of_In in Hin. apply Hw in Hin. congruence.
Qed.

Lemma after_gt_app (m u : jstring) : 62%N ∉ m -> after_gt (m ++ u) = after_gt u.
Proof.
  induction m as [| x m IH]; intros Hm; [done |].
  apply not_elem_of_cons in Hm as [Hx Hm]. simpl.
  destruct (N.eqb_spec x 62) as [-> | _]; [done | by apply IH].
Qed.

Lemma after_gt_split (p : jstring) :
  62%N ∉ p \/ exists a b, p = a ++ 62%N :: b /\ 62%N ∉ a.
Proof.
  induction p as [| x p IH]; [left; by apply not_elem_of_nil |].
  destruct (N.eqb_spec x 62) as [-> | Hx].
  - right. exists [], p. split; [done | by apply not_elem_of_nil].
  - destruct IH as [Hp | (a & b & -> & Ha)].
    + left. by apply not_elem_of_cons.
    + right. exists (x :: a), b. split; [done | by apply not_elem_of_cons].
Qed.

(** Tags are counted past white space. *)
Lemma count_tag_whitespace (c : N -> bool) (w s : jstring) :
  forallb is_whitespace w = true ->
  count_from (tag c) O (w ++ s) = count_from (tag c) O s.
Proof.
  induction w as [| x w IH]; intros Hw; [done |].
  simpl in Hw. apply andb_true_iff in Hw as [Hx Hw].
  rewrite <- app_comm_cons, count_tag_step.
  destruct (N.eqb_spec x 60) as [-> | _]; [discriminate | by apply IH].
Qed.

(** The white space between [>] and [<] does not count. *)
Lemma count_tag_squeeze (c : N -> bool) (w q : jstring) :
  forallb is_whitespace w = true ->
  forall n p, (length p <= n)%nat ->
    count_from (tag c) O (p ++ 62%N :: w ++ 60%N :: q)
    = count_from (tag c) O (p ++ 62%N :: 60%N :: q).
Proof.
  intros Hw.
  assert (Hgt : 62%N ∉ w) by (by apply whitespace_not).
  assert (Hbase : count_from (tag c) O (62%N :: w ++ 60%N :: q)
                  = count_from (tag c) O (62%N :: 60%N :: q)).
  { rewrite !(count_tag_step c 62). simpl. by apply count_tag_whitespace. }
  induction n as [| n IH]; intros p Hlen.
  - destruct p; [exact Hbase | simpl in Hlen; lia].
  - destruct p as [| x p]; [exact Hbase |].
    simpl in Hlen. rewrite <- !app_comm_cons, !(count_tag_step c x).
    destruct (x =? 60)%N; [| apply IH; lia].
    destruct p as [| y p].
    + cbn [app]. destruct (c 62%N); [| exact Hbase].
      rewrite (after_gt_app w) by done. simpl after_gt.
      destruct (after_gt q); [done | exact Hbase].
    + rewrite <- !app_comm_cons. cbn iota. destruct (c y); [| apply (IH (y :: p)); lia].
      destruct (after_gt_split p) as [Hp | (a & b & -> & Ha)].
      * rewrite !(after_gt_app p) by done. simpl after_gt.
        f_equal. by apply count_tag_whitespace.
      * rewrite <- !app_assoc, !(after_gt_app a) by done.
        rewrite <- !app_comm_cons. simpl after_gt. f_equal.
        apply IH. simpl in Hlen. rewrite length_app in Hlen. simpl in Hlen. lia.
Qed.

Lemma tags_meet_inv (s rest : jstring) :
  tags_meet s = Some rest ->
  exists w, s = 62%N :: w ++ 60%N :: rest /\ forallb is_whitespace w = true.
Proof.
  destruct s as [| x t]; [done |]. unfold tags_meet.
  destruct (N.eqb_spec x 62) as [-> | Hx].
  2: { destruct x as [| p]; [done |]. repeat (destruct p as [p | p |]; try done). }
  destruct (String_trimStart_split t) as (w & Ht & Hw).
  destruct (String_trimStart t) as [| c rest'] eqn:Htrim; [done |].
  intros H.
  assert (c = 60%N /\ rest' = rest) as [-> ->].
  { destruct (N.eqb_spec c 60) as [-> | Hc]; [by injection H |].
    destruct c as [| p]; [done |]. repeat (destruct p as [p | p |]; try done). }
  exists w. by rewrite Ht at 1.
Qed.

(** Formatting html changes the count of no kind of tag, whatever stands
    before the text. *)
Lemma count_tag_break_tags (c : N -> bool) (n : nat) :
  forall s, (length s <= n)%nat ->
  forall p, count_from (tag c) O (p ++ break_tags s) = count_from (tag c) O (p ++ s).
Proof.
  induction n as [| n IH]; intros s Hlen p.
  - destruct s; [done | simpl in Hlen; lia].
  - rewrite break_tags_step. destruct s as [| x t]; [done |].
    destruct (tags_meet (x :: t)) as [rest |] eqn:Hmeet.
    + destruct (tags_meet_inv _ _ Hmeet) as (w & Hs & Hw). rewrite Hs.
      rewrite Hs in Hlen. simpl in Hlen. rewrite length_app in Hlen. simpl in Hlen.
      change (p ++ 62%N :: 10%N :: 60%N :: break_tags rest)
        with (p ++ [62%N; 10%N; 60%N] ++ break_tags rest).
      rewrite app_assoc, IH by lia. rewrite <- app_assoc.
      change (p ++ [62%N; 10%N; 60%N] ++ rest) with (p ++ 62%N :: [10%N] ++ 60%N :: rest).
      rewrite (count_tag_squeeze c [10%N] rest eq_refl _ p (Nat.le_refl _)).
      by rewrite (count_tag_squeeze c w rest Hw _ p (Nat.le_refl _)).
    + rewrite (cons_middle x p), (cons_middle x p t), !app_assoc.
      apply IH. simpl in Hlen. lia.
Qed.

(** ** Looking for a tag name *)

Lemma starts_with_break_tags (q : jstring) :
  62%N ∉ q -> forall t, starts_with q (break_tags t) = starts_with q t.
Proof.
  induction q as [| a q IH]; intros Hq t; [done |].
  apply not_elem_of_cons in Hq as [Ha Hq].
  rewrite break_tags_step. destruct t as [| y t]; [done |].
  destruct (tags_meet (y :: t)) as [rest |] eqn:Hmeet.
  - destruct (tags_meet_inv _ _ Hmeet) as (w & [= -> _] & _).
    simpl. by destruct (N.eqb_spec a 62).
  - simpl. by rewrite IH.
Qed.

Lemma String_includes_whitespace (w s q : jstring) :
  forallb is_whitespace w = true ->
  String_includes (w ++ s) (60%N :: q) = String_includes s (60%N :: q).
Proof.
  induction w as [| x w IH]; intros Hw; [done |].
  simpl in Hw. apply andb_true_iff in Hw as [Hx Hw].
  rewrite <- app_comm_cons. cbn [String_includes starts_with].
  destruct (N.eqb_spec 60 x) as [<- | _]; [discriminate |].
  by rewrite IH.
Qed.

(** The formatter neither makes nor breaks a [<] followed by a name. *)
Lemma String_includes_break_tags (q : jstring) (n : nat) :
  62%N ∉ q ->
  forall s, (length s <= n)%nat ->
    String_includes (break_tags s) (60%N :: q) = String_includes s (60%N :: q).
Proof.
  intros Hq. induction n as [| n IH]; intros s Hlen.
  - destruct s; [done | simpl in Hlen; lia].
  - rewrite break_tags_step. destruct s as [| x t]; [done |].
    destruct (tags_meet (x :: t)) as [rest |] eqn:Hmeet.
    + destruct (tags_meet_inv _ _ Hmeet) as (w & Hs & Hw). rewrite Hs.
      rewrite Hs in Hlen. simpl in Hlen. rewrite length_app in Hlen. simpl in Hlen.
      cbn [String_includes starts_with]. simpl (_ =? _)%N. simpl.
      rewrite (String_includes_whitespace w) by done.
      cbn [String_includes starts_with]. simpl (_ =? _)%N. simpl.
      rewrite starts_with_break_tags by done.
      rewrite IH by lia. done.
    + cbn [String_includes starts_with].
      rewrite IH by (simpl in Hlen; lia).
      destruct (60 =? x)%N; [| done]. simpl.
      by rewrite starts_with_break_tags.
Qed.

Lemma String_match_count_break_tags (c : N -> bool) (s : jstring) :
  String_match_count (break_tags s) (tag c) = String_match_count s (tag c).
Proof. exact (count_tag_break_tags c _ s (Nat.le_refl _) []). Qed.

Lemma validateHTML_formatHTML (s : jstring) :
  validateHTML (code (formatHTML s)) = validateHTML s.
Proof.
  unfold validateHTML, formatHTML. cbn [code]. fold (break_tags s).
  change opening_tag with (tag (not_chr "/")). change closing_tag with (tag (chr "/")).
  rewrite !String_match_count_break_tags.
  change (js "<html") with (60%N :: js "html"). change (js "<body") with (60%N :: js "body").
  assert (Hhtml : 62%N ∉ js "html") by (by apply (bool_decide_unpack (_ ∉ _))).
  assert (Hbody : 62%N ∉ js "body") by (by apply (bool_decide_unpack (_ ∉ _))).
  by rewrite (String_includes_break_tags _ _ Hhtml s (Nat.le_refl _)),
       (String_includes_break_tags _ _ Hbody s (Nat.le_refl _)).
Qed.

(** ** What formatting changes *)

Lemma visible_app (a b : jstring) : visible (a ++ b) = visible a ++ visible b.
Proof. apply List.filter_app. Qed.

Lemma visible_cons (x : N) (s : jstring) : visible (x :: s) = visible [x] ++ visible s.
Proof. exact (visible_app [x] s). Qed.

Lemma visible_whitespace (w : jstring) :
  forallb is_whitespace w = true -> visible w = [].
Proof.
  induction w as [| x w IH]; intros Hw; [done |].
  simpl in Hw. apply andb_true_iff in Hw as [Hx Hw].
  unfold visible. simpl. rewrite Hx. by apply IH.
Qed.

(** A replacement whose matches differ from what replaces them in white
    space only changes white space only. *)
Lemma replace_from_visible (r : regex) (by_ : jstring) :
  (forall x t rest, match_here r (x :: t) = Some rest ->
     exists m, t = m ++ rest /\ visible (x :: m) = visible by_) ->
  forall k s, (length s <= k)%nat -> visible (replace_from r by_ O s) = visible s.
Proof.
  intros Hr. induction k as [| k IH]; intros s Hlen.
  - destruct s; [done | simpl in Hlen; lia].
  - destruct s as [| x t]; [done |].
    destruct (match_here r (x :: t)) as [rest |] eqn:Hmatch.
    + destruct (Hr _ _ _ Hmatch) as (m & -> & Hm).
      rewrite (replace_from_match _ _ _ _ rest Hmatch) by (rewrite length_app; lia).
      rewrite app_comm_cons, (visible_app by_), (visible_app (x :: m)), <- Hm, IH; [done |].
      simpl in Hlen. rewrite length_app in Hlen. lia.
    + rewrite (replace_from_miss _ _ _ _ Hmatch).
      rewrite (visible_cons x (replace_from r by_ O t)), (visible_cons x t), IH; [done |].
      simpl in Hlen. lia.
Qed.

Lemma visible_formatHTML (s : jstring) : visible (code (formatHTML s)) = visible s.
Proof.
  unfold formatHTML, String_replace. cbn [code].
  apply replace_from_visible with (k := length s); [| done].
  intros x t rest Hmatch. rewrite match_between_tags in Hmatch.
  destruct (tags_meet_inv _ _ Hmatch) as (w & [= -> ->] & Hw).
  exists (w ++ [60%N]). split; [by rewrite <- app_assoc |].
  by rewrite (visible_cons 62 (w ++ [60%N])), (visible_app w), (visible_whitespace w Hw).
Qed.

Lemma visible_open_brace (s : jstring) :
  visible (String_replace s open_brace (js " {" ++ [10%N] ++ js "  ")) = visible s.
Proof.
  apply replace_from_visible with (k := length s); [| done].
  intros x t rest Hmatch. rewrite match_open_brace in Hmatch.
  destruct (N.eqb_spec x 123) as [-> | _]; [| done]. injection Hmatch as <-.
  destruct (String_trimStart_split t) as (w & Ht & Hw).
  exists w. split; [done |].
  by rewrite (visible_cons 123 w), (visible_whitespace w Hw).
Qed.

Lemma visible_close_brace (s : jstring) :
  visible (String_replace s close_brace (js ";" ++ [10%N] ++ js "}")) = visible s.
Proof.
  apply replace_from_visible with (k := length s); [| done].
  intros x t rest Hmatch. rewrite match_close_brace in Hmatch.
  destruct (N.eqb_spec x 59) as [-> | _]; [| done].
  destruct (String_trimStart_split t) as (w & Ht & Hw).
  destruct (String_trimStart t) as [| b rest']; [done |].
  destruct (N.eqb_spec b 125) as [-> | _]; [| done]. injection Hmatch as ->.
  exists (w ++ [125%N]). split; [by rewrite <- app_assoc |].
  by rewrite (visible_cons 59 (w ++ [125%N])), (visible_app w), (visible_whitespace w Hw).
Qed.

Lemma visible_formatCSS (s : jstring) : visible (code (formatCSS s)) = visible s.
Proof.
  unfold formatCSS. cbv zeta. cbn [code].
  by rewrite visible_close_brace, visible_open_brace.
Qed.

Lemma elem_of_visible (s : jstring) (c : N) :
  is_whitespace c = false -> c ∈ visible s <-> c ∈ s.
Proof.
  intros Hc. rewrite !list_elem_of_In. unfold visible. rewrite List.filter_In, Hc.
  simpl. tauto.
Qed.

Lemma String_includes_unit (s : jstring) (c : N) :
  String_includes s [c] = true <-> c ∈ s.
Proof.
  induction s as [| x t IH]; simpl.
  - split; [done | by intros ?%elem_of_nil].
  - rewrite andb_true_r, orb_true_iff, IH, elem_of_cons, N.eqb_eq. done.
Qed.

Lemma String_includes_visible (s s' : jstring) (c : N) :
  is_whitespace c = false -> visible s = visible s' ->
  String_includes s [c] = String_includes s' [c].
Proof.
  intros Hc H. apply eq_true_iff_eq.
  by rewrite !String_includes_unit, <- (elem_of_visible s c Hc),
       <- (elem_of_visible s' c Hc), H.
Qed.

Lemma validateCSS_formatCSS (s : jstring) :
  validateCSS (code (formatCSS s)) = validateCSS s.
Proof.
  unfold validateCSS. change (js "{") with [123%N]. change (js "}") with [125%N].
  by rewrite (String_includes_visible _ s 123 eq_refl (visible_formatCSS s)),
       (String_includes_visible _ s 125 eq_refl (visible_formatCSS s)).
Qed.

Section Composition.
Context {platform : Runtime}.
Variable Function_new : jstring -> option jstring.

(** Format, for a language other than javascript and json, always succeeds
    and changes white space only: the code it returns holds the code units
    of the source that are not white space, in the same order, and no
    other. *)
Theorem formatCode_white_space_only (source language : jstring) :
  language <> js "javascript" -> language <> js "json" ->
  exists r,
    formatCode source language = Returned r
    /\ visible (code r) = visible source.
Proof.
  intros Hjs Hjson. unfold formatCode.
  rewrite (eqb_jstring_neq _ _ Hjs), (eqb_jstring_neq _ _ Hjson).
  destruct (eqb_jstring language (js "html")); [| destruct (eqb_jstring language (js "css"))];
    eexists; (split; [reflexivity |]).
  - apply visible_formatHTML.
  - apply visible_formatCSS.
  - done.
Qed.

(** For a language other than javascript and json, Validate answers on the
    formatted code what it answers on the source: the same verdict, errors
    and warnings. For html, formatting changes neither the count of opening
    tags nor that of closing tags nor whether [<html] or [<body] occurs;
    for css it keeps both kinds of brace. *)
Theorem formatCode_keeps_verdict (source language : jstring) :
  language <> js "javascript" -> language <> js "json" ->
  exists r,
    formatCode source language = Returned r
    /\ validateCode Function_new (code r) language
       = validateCode Function_new source language.
Proof.
  intros Hjs Hjson. unfold formatCode, validateCode.
  rewrite (eqb_jstring_neq _ _ Hjs), (eqb_jstring_neq _ _ Hjson).
  destruct (eqb_jstring language (js "typescript")) eqn:Hts.
  { apply bool_decide_eq_true in Hts as ->. by eexists. }
  destruct (eqb_jstring language (js "html")); [| destruct (eqb_jstring language (js "css"))];
    eexists; (split; [reflexivity |]).
  - apply validateHTML_formatHTML.
  - apply validateCSS_formatCSS.
  - done.
Qed.

(** Validate answers invalid in four cases only: a language that
    [GET /languages] does not list, javascript that the parser refuses,
    typescript whose stripped code the parser refuses or whose only error is
    the mismatch of braces, and json that [JSON.parse] refuses. *)
Theorem validateCode_rejects (source language : jstring) :
  isValid (validateCode Function_new source language) = false ->
  language ∉ Language.id <$> supportedLanguages
  \/ (language = js "javascript" /\ is_Some (Function_new source))
  \/ (language = js "typescript"
      /\ (is_Some (Function_new (strip_types source))
          \/ errors (validateCode Function_new source language)
             = [js "Mismatched braces in TypeScript code"]))
  \/ (language = js "json" /\ exists message, JSON_parse source = inr message).
Proof.
  unfold validateCode.
  destruct (eqb_jstring language (js "javascript")) eqn:Hjs.
  { apply bool_decide_eq_true in Hjs as ->. unfold validateJavaScript.
    destruct (Function_new source); [| done]. intros _. right. left. by split. }
  destruct (eqb_jstring language (js "typescript")) eqn:Hts.
  { apply bool_decide_eq_true in Hts as ->. unfold validateTypeScript.
    intros H. right. right. left. split; [done |].
    destruct (Function_new (strip_types source)); [by left | right].
    simpl in *. by repeat break_match. }
  destruct (eqb_jstring language (js "json")) eqn:Hj.
  { apply bool_decide_eq_true in Hj as ->. unfold validateJSON.
    destruct (JSON_parse source) as [| m]; [done |]. intros _.
    right. right. right. split; [done | by exists m]. }
  destruct (eqb_jstring language (js "html")) eqn:Hhtml; [done |].
  destruct (eqb_jstring language (js "css")) eqn:Hcss; [done |].
  destruct (eqb_jstring language (js "python")) eqn:Hpy; [done |].
  destruct (eqb_jstring language (js "markdown")) eqn:Hmd; [done |].
  intros _. left. simpl. intros Hin.
  repeat (apply elem_of_cons in Hin as [-> | Hin]); try done.
  by apply elem_of_nil in Hin.
Qed.

End Composition.

(** ** Failures of a typescript call *)

Section TypeScriptFailures.
Context {platform : Runtime}.
Implicit Types (this : CodeRunner) (code language input : jstring).

(** When the script of a typescript call throws a value that is not an
    opaque object, the call is not rejected: it resolves with success=false,
    an empty output, and as error the text "TypeScript execution failed: "
    followed by the [message] of what was thrown, converted to a string
    ("undefined" for a thrown number or string). For a thrown [null] or
    [undefined], whose [message] cannot be read, the error is the message of
    the TypeError that reading it raised. The service is left as the script
    left it. *)
Theorem executeCode_typescript_throw this startTime endTime code input e this' :
  String_length code <= maxCodeLength this ->
  executeJavaScript this
    (if String_includes code (js "interface") || String_includes code (js "type")
        || String_includes code (js ":")
     then strip_types code else code) input = (Thrown e, this') ->
  (forall o, e <> VOpaque o) ->
  exists r text,
    executeCode this startTime endTime code (js "typescript") input = (Returned r, this')
    /\ get r "success" = VBool false
    /\ get r "output" = VStr []
    /\ get r "error" = VStr text
    /\ match get_message e with
       | Returned message =>
           exists t, ToString message = Returned t
                     /\ text = js "TypeScript execution failed: " ++ t
       | Thrown error => get_message error = Returned (VStr text)
       end.
Proof.
  intros Hlen Hrun Hdata. unfold executeCode, executeTypeScript.
  rewrite (length_guard_passes _ _ Hlen). simpl.
  destruct (String_includes code (js "interface") || String_includes code (js "type")
            || String_includes code (js ":")); rewrite Hrun;
    (destruct e as [| | b | n | s | items | props | name message | buffer | o];
     [.. | by destruct (Hdata o)]; simpl;
     try (eexists _, _; repeat (split; [reflexivity |]); by eauto)).
  all: destruct (assoc (js "message") props) as [[]|]; simpl;
    eexists _, _; repeat (split; [reflexivity |]); by eauto.
Qed.

End TypeScriptFailures.

(** ** At instances *)

Lemma executeCode_too_long_witness :
  maxCodeLength default_runner < String_length (replicate (Z.to_nat 10001) 97%N)
  /\ exists r,
       executeCode default_runner 100 105 (replicate (Z.to_nat 10001) 97%N) (js "ruby") []
         = (Returned r, default_runner)
       /\ get r "success" = VBool false
       /\ get r "output" = VStr []
       /\ get r "error" =
            VStr (js "Code too long. Maximum allowed: "
                  ++ Number_toString (maxCodeLength default_runner) ++ js " characters").
Proof.
  assert (H : maxCodeLength default_runner < String_length (replicate (Z.to_nat 10001) 97%N))
    by (vm_compute; reflexivity).
  split; [exact H |].
  exact (executeCode_too_long (platform := reference) default_runner 100 105 _ (js "ruby") [] H).
Defined.

Lemma unknown_language_witness :
  String_length (js "puts 1") <= maxCodeLength default_runner
  /\ (js "ruby" ∉ Language.id <$> supportedLanguages)
  /\ (exists r,
        executeCode default_runner 100 105 (js "puts 1") (js "ruby") []
          = (Returned r, default_runner)
        /\ get r "success" = VBool false
        /\ get r "error" = VStr (js "Unsupported language: " ++ js "ruby"))
  /\ validateCode (platform := reference) (fun _ => None) (js "puts 1") (js "ruby") =
       {| isValid := false; errors := [js "Unsupported language: " ++ js "ruby"];
          warnings := None |}
  /\ formatCode (platform := reference) (js "puts 1") (js "ruby")
     = Returned {| code := js "puts 1"; changes := [] |}.
Proof.
  assert (H1 : String_length (js "puts 1") <= maxCodeLength default_runner)
    by (vm_compute; discriminate).
  assert (H2 : js "ruby" ∉ (Language.id <$> supportedLanguages)).
  { by apply (bool_decide_unpack (_ ∉ _)). }
  split; [exact H1 | split; [exact H2 |]].
  exact (unknown_language (platform := reference) (fun _ => None) default_runner 100 105
           (js "puts 1") (js "ruby") [] H1 H2).
Defined.

Lemma executeCode_preview_witness :
  String_length (js "<a>") <= maxCodeLength default_runner
  /\ js "html" ∈ [js "html"; js "css"; js "markdown"]
  /\ exists r heading note,
       executeCode default_runner 100 105 (js "<a>") (js "html") [] = (Returned r, default_runner)
       /\ get r "success" = VBool true
       /\ get r "error" = VNull
       /\ get r "output" =
            VStr (heading ++ [10%N] ++ js "```" ++ js "html" ++ [10%N] ++ js "<a>" ++ [10%N]
                  ++ js "```" ++ [10%N] ++ [10%N] ++ note)
       /\ 10%N ∉ heading.
Proof.
  assert (H1 : String_length (js "<a>") <= maxCodeLength default_runner)
    by (vm_compute; discriminate).
  assert (H2 : js "html" ∈ [js "html"; js "css"; js "markdown"]).
  { by apply (bool_decide_unpack (_ ∈ _)). }
  split; [exact H1 | split; [exact H2 |]].
  exact (executeCode_preview (platform := reference) default_runner 100 105
           (js "<a>") (js "html") [] H1 H2).
Defined.


Lemma validateTypeScript_plain_witness :
  String_includes (js "x = ") (js ":") = false
  /\ String_includes (js "x = ") (js "<") = false
  /\ String_includes (js "x = ") (js "interface") = false
  /\ String_includes (js "x = ") (js "type") = false
  /\ isValid (validateCode (platform := reference)
                (fun _ => Some (js "Unexpected end of input")) (js "x = ") (js "typescript"))
     = isValid (validateCode (platform := reference)
                  (fun _ => Some (js "Unexpected end of input")) (js "x = ") (js "javascript"))
  /\ errors (validateCode (platform := reference)
               (fun _ => Some (js "Unexpected end of input")) (js "x = ") (js "typescript"))
     = (fun message => js "JavaScript execution failed: " ++ message)
         <$> errors (validateCode (platform := reference)
                       (fun _ => Some (js "Unexpected end of input")) (js "x = ")
                       (js "javascript")).
Proof.
  split; [reflexivity | split; [reflexivity | split; [reflexivity | split; [reflexivity |]]]].
  exact (validateTypeScript_plain (platform := reference)
           (fun _ => Some (js "Unexpected end of input")) (js "x = ")
           eq_refl eq_refl eq_refl eq_refl).
Defined.

Lemma formatCSS_never_settles_witness :
  123%N ∈ js "a{b;}"
  /\ (0 <> 1)%nat
  /\ Nat.iter 0 (fun t => code (formatCSS t)) (js "a{b;}")
     <> Nat.iter 1 (fun t => code (formatCSS t)) (js "a{b;}").
Proof.
  assert (H1 : 123%N ∈ js "a{b;}").
  { by apply (bool_decide_unpack (_ ∈ _)). }
  assert (H2 : (0 <> 1)%nat) by lia.
  split; [exact H1 | split; [exact H2 |]].
  exact (formatCSS_never_settles (js "a{b;}") 0 1 H1 H2).
Defined.

Lemma formatCode_white_space_only_witness :
  js "css" <> js "javascript"
  /\ js "css" <> js "json"
  /\ exists r,
       formatCode (platform := reference) (js "a{b;}") (js "css") = Returned r
       /\ visible (code r) = visible (js "a{b;}").
Proof.
  assert (H1 : js "css" <> js "javascript") by discriminate.
  assert (H2 : js "css" <> js "json") by discriminate.
  split; [exact H1 | split; [exact H2 |]].
  exact (formatCode_white_space_only (platform := reference) (js "a{b;}") (js "css") H1 H2).
Defined.

Lemma formatCode_keeps_verdict_witness :
  js "html" <> js "javascript"
  /\ js "html" <> js "json"
  /\ exists r,
       formatCode (platform := reference) (js "<a> <b>") (js "html") = Returned r
       /\ validateCode (platform := reference) (fun _ => None) (code r) (js "html")
          = validateCode (platform := reference) (fun _ => None) (js "<a> <b>") (js "html").
Proof.
  assert (H1 : js "html" <> js "javascript") by discriminate.
  assert (H2 : js "html" <> js "json") by discriminate.
  split; [exact H1 | split; [exact H2 |]].
  exact (formatCode_keeps_verdict (platform := reference) (fun _ => None)
           (js "<a> <b>") (js "html") H1 H2).
Defined.

Lemma validateCode_rejects_witness :
  isValid (validateCode (platform := reference) (fun _ => None) (js "{") (js "json")) = false
  /\ (js "json" ∉ Language.id <$> supportedLanguages
      \/ (js "json" = js "javascript" /\ is_Some (None : option jstring))
      \/ (js "json" = js "typescript"
          /\ (is_Some (None : option jstring)
              \/ errors (validateCode (platform := reference) (fun _ => None) (js "{") (js "json"))
                 = [js "Mismatched braces in TypeScript code"]))
      \/ (js "json" = js "json"
          /\ exists message, JSON_parse (Runtime := reference) (js "{") = inr message)).
Proof.
  assert (H : isValid (validateCode (platform := reference) (fun _ => None) (js "{") (js "json"))
              = false) by (vm_compute; reflexivity).
  split; [exact H |].
  exact (validateCode_rejects (platform := reference) (fun _ => None) (js "{") (js "json") H).
Defined.

Lemma executeCode_typescript_throw_witness :
  String_length (js "throw null") <= maxCodeLength default_runner
  /\ exists r,
       executeCode default_runner 100 105 (js "throw null") (js "typescript") []
         = (Returned r, snd (executeJavaScript default_runner (js "throw null") []))
       /\ get r "error" = VStr (js "Cannot read properties of null (reading 'message')").
Proof.
  assert (H1 : String_length (js "throw null") <= maxCodeLength default_runner)
    by (vm_compute; discriminate).
  assert (Hthrown : fst (executeJavaScript default_runner (js "throw null") []) = Thrown VNull)
    by (vm_compute; reflexivity).
  assert (H2 : executeJavaScript default_runner
                 (if String_includes (js "throw null") (js "interface")
                     || String_includes (js "throw null") (js "type")
                     || String_includes (js "throw null") (js ":")
                  then strip_types (js "throw null") else js "throw null") []
               = (Thrown VNull, snd (executeJavaScript default_runner (js "throw null") []))).
  { change (executeJavaScript default_runner (js "throw null") []
            = (Thrown VNull, snd (executeJavaScript default_runner (js "throw null") []))).
    rewrite <- Hthrown. apply surjective_pairing. }
  assert (H3 : forall o, VNull <> VOpaque o) by discriminate.
  split; [exact H1 |].
  destruct (executeCode_typescript_throw (platform := reference) default_runner 100 105
              (js "throw null") [] VNull _ H1 H2 H3) as (r & text & Hcall & _ & _ & Herror & Htext).
  exists r. split; [exact Hcall |]. rewrite Herror. simpl in Htext. congruence.
Defined.
